(** * Kaleidoscope-Heatmap: a shallow embedding of [Heatmap.cpp]

    The plugin keeps one 16-bit press counter per key, halves all of them
    when the running maximum grows too large, and paints every key with a
    colour interpolated along a palette.

    Target.  The code is written for the AVR boards Kaleidoscope runs on
    ([PROGMEM], [pgm_read_byte]).  There [int] and [unsigned int] are 16
    bits wide, [unsigned long] (the type of [millis()]) is 32 bits wide and
    [float] is IEEE-754 binary32.  Integers are modelled as [Z] with the
    wrap-around of their C++ type written out; [float] values are modelled
    with the executable binary32 operations of [SpecFloat] (round to
    nearest, ties to even). *)

From Stdlib Require Import ZArith Lia Bool List.
From Stdlib Require Import Floats.SpecFloat.
From stdpp Require Import base option list.

Local Open Scope Z_scope.

(** ** Machine integers *)

Definition UINT8_MOD : Z := 256.
Definition UINT16_MOD : Z := 65536.
Definition UINT32_MOD : Z := 4294967296.
Definition INT16_MAX : Z := 32767.

(** Narrowing conversions to the unsigned types of the source. *)
Definition to_uint8 (z : Z) : Z := z mod UINT8_MOD.
Definition to_uint16 (z : Z) : Z := z mod UINT16_MOD.
Definition to_uint32 (z : Z) : Z := z mod UINT32_MOD.

(** ** binary32 arithmetic *)

Module F32.

Definition prec : Z := 24.
Definition emax : Z := 128.

Definition float : Type := spec_float.

(** Conversion of an integer to [float]; exact below 2^24. *)
Definition of_int (z : Z) : float := binary_normalize prec emax z 0 false.

Definition zero : float := S754_zero false.

Definition mul : float -> float -> float := SFmul prec emax.
Definition div : float -> float -> float := SFdiv prec emax.
Definition add : float -> float -> float := SFadd prec emax.
Definition sub : float -> float -> float := SFsub prec emax.

(** [x <= y]; false as soon as one side is a NaN, as in C++. *)
Definition leb : float -> float -> bool := SFleb.
Definition ltb : float -> float -> bool := SFltb.

(** [static_cast<int>(f)]: "just drop the decimal part of the number"
    (see the comment in [computeColor]).  C++ leaves the conversion of a
    NaN or an infinity undefined; the model returns 0 there. *)
Definition to_int (f : float) : Z :=
  match f with
  | S754_finite s m e =>
      let a := Z.shiftl (Z.pos m) e in
      if s then - a else a
  | _ => 0
  end.

(** The literal [0.8] converted to binary32: 13421773 * 2^-24. *)
Definition lit_0_8 : float := S754_finite false 13421773 (-24).

End F32.

(** ** Colours and configuration *)

(** "in the cRGB struct the order is blue, green, red" (line 30 of the
    source); the struct itself is declared by the hardware library.  Each
    channel is a [uint8_t]. *)
Module cRGB.
Record t : Type := mk { b : Z; g : Z; r : Z }.

(** Every channel is a byte. *)
Definition wf (c : t) : Prop :=
  0 <= b c < 256 /\ 0 <= g c < 256 /\ 0 <= r c < 256.
End cRGB.

(** [heat_colors] is a bare pointer into program memory.  It is modelled
    by the sequence of [cRGB] records found from that address on, indexed
    from 0; [heat_colors_length] says how many of them are palette stops. *)
Record Config : Type := mkConfig {
  heat_colors : nat -> cRGB.t;
  heat_colors_length : Z;          (* uint8_t *)
  update_delay : Z                 (* uint16_t *)
}.

(** The records of a constant array, as seen through a pointer to its
    first element. *)
Definition pointer_to (a : list cRGB.t) : nat -> cRGB.t :=
  fun i => nth i a (cRGB.mk 0 0 0).

(**                                     black        green         yellow           red *)
Definition heat_colors_default_ : list cRGB.t :=
  [cRGB.mk 0 0 0; cRGB.mk 25 255 25; cRGB.mk 25 255 255; cRGB.mk 25 25 255].

(** The static initialisers of the source. *)
Definition default_config : Config :=
  {| heat_colors := pointer_to heat_colors_default_;
     heat_colors_length := 4;
     update_delay := 1000 |}.

(** [pgm_read_byte] fetches one byte of program memory. *)
Definition pgm_read_byte (x : Z) : Z := x.

(** ** [Heatmap::computeColor] *)

(** The three local variables [idx1], [idx2] and [fb] after the
    [if]/[else if]/[else] cascade. *)
Definition computeColor_indices (cfg : Config) (v : F32.float) : Z * Z * F32.float :=
  if F32.leb v (F32.of_int 0) then
    (0, 0, F32.zero)
  else if F32.leb (F32.of_int 1) v then
    let i := to_uint8 (heat_colors_length cfg - 1) in
    (i, i, F32.zero)
  else
    let val := F32.mul v (F32.of_int (heat_colors_length cfg - 1)) in
    let idx1 := to_uint8 (F32.to_int val) in
    let idx2 := to_uint8 (idx1 + 1) in
    (idx1, idx2, F32.sub val (F32.of_int idx1)).

(** One channel: [static_cast<uint8_t>((c2 - c1) * fb + c1)].  The
    subtraction is done on [int], the product and the sum on [float]. *)
Definition blend (c1 c2 : Z) (fb : F32.float) : Z :=
  to_uint8 (F32.to_int
    (F32.add (F32.mul (F32.of_int (pgm_read_byte c2 - pgm_read_byte c1)) fb)
             (F32.of_int (pgm_read_byte c1)))).

Definition computeColor (cfg : Config) (v : F32.float) : cRGB.t :=
  let '(idx1, idx2, fb) := computeColor_indices cfg v in
  let s1 := heat_colors cfg (Z.to_nat idx1) in
  let s2 := heat_colors cfg (Z.to_nat idx2) in
  let r := blend (cRGB.r s1) (cRGB.r s2) fb in
  let g := blend (cRGB.g s1) (cRGB.g s2) fb in
  let b := blend (cRGB.b s1) (cRGB.b s2) fb in
  cRGB.mk b g r.

(** ** The counters *)

(** Status codes of Kaleidoscope's event hooks (declared by the core
    firmware). *)
Inductive EventHandlerResult : Type :=
  | OK
  | EVENT_CONSUMED
  | ERROR.

(** [heatmap_[ROWS][COLS]]: a list of rows. *)
Abbreviation Grid := (list (list Z)).

Record State : Type := mkState {
  heatmap_ : Grid;                 (* uint16_t [ROWS][COLS] *)
  highest_ : Z;                    (* uint16_t *)
  next_heatmap_comp_time_ : Z      (* uint32_t *)
}.

(** One call of [::LEDControl.setCrgbAt(r, c, color)]. *)
Definition LedWrite : Type := (nat * nat * cRGB.t)%type.

(** Reading and writing [heatmap_[r][c]]; an access outside the array is
    undefined in C++ and has no result here. *)
Definition cell (g : Grid) (r c : nat) : option Z :=
  row ← g !! r; row !! c.

Definition set_cell (g : Grid) (r c : nat) (v : Z) : option Grid :=
  row ← g !! r;
  if decide (c < length row)%nat then Some (<[r := <[c := v]> row]> g) else None.

(** [for (uint8_t i = from; i < from + n; i++) body], threading the state
    the body works on. *)
Fixpoint for_loop {St : Type} (from n : nat) (body : nat -> St -> option St)
    (s : St) : option St :=
  match n with
  | O => Some s
  | S n' => s' ← body from s; for_loop (S from) n' body s'
  end.

(** The Keyboardio Model 01, the board the plugin was written for:
    4 rows of 16 keys, and the key-state bits of the firmware core
    ([INJECTED = B10000000], [IS_PRESSED = B00000010],
    [WAS_PRESSED = B00000001]). *)
Module Model01.
Definition ROWS : nat := 4.
Definition COLS : nat := 16.
Definition INJECTED : Z := 128.
Definition IS_PRESSED : Z := 2.
Definition WAS_PRESSED : Z := 1.
Definition keyToggledOn (key_state : Z) : bool :=
  negb (Z.land key_state IS_PRESSED =? 0) && (Z.land key_state WAS_PRESSED =? 0).
End Model01.

Section Heatmap.

(** Build-time constants and helpers that the firmware core provides:
    the matrix dimensions, the key type, the [INJECTED] flag of a key
    state and the predicate [keyToggledOn]. *)
Variables ROWS COLS : nat.
Variable Key : Type.
Variable INJECTED : Z.
Variable keyToggledOn : Z -> bool.

(** The array type fixes the dimensions of the grid. *)
Definition wf_grid (g : Grid) : Prop :=
  length g = ROWS /\ Forall (fun row => length row = COLS) g.

(** Static initialisation: every counter 0, [highest_ = 1], nothing
    scheduled. *)
Definition init_state : State :=
  {| heatmap_ := replicate ROWS (replicate COLS 0);
     highest_ := 1;
     next_heatmap_comp_time_ := 0 |}.

(** *** [Heatmap::shiftStats] *)

Definition shift_cell (r c : nat) (g : Grid) : option Grid :=
  x ← cell g r c; set_cell g r c (Z.shiftr x 1).

Definition shiftStats (s : State) : option State :=
  g ← for_loop 0 ROWS (fun r => for_loop 0 COLS (shift_cell r)) (heatmap_ s);
  Some {| heatmap_ := g;
          highest_ := Z.shiftr (highest_ s) 1;
          next_heatmap_comp_time_ := next_heatmap_comp_time_ s |}.

(** *** [Heatmap::onKeyswitchEvent] *)

Definition onKeyswitchEvent (s : State) (mapped_key : Key) (row col : nat)
    (key_state : Z) : option (State * EventHandlerResult) :=
  if negb (Z.land key_state INJECTED =? 0) then Some (s, OK)
  else if negb (keyToggledOn key_state) then Some (s, OK)
  else
    x ← cell (heatmap_ s) row col;
    let x' := to_uint16 (x + 1) in
    g ← set_cell (heatmap_ s) row col x';
    let s1 := {| heatmap_ := g;
                 highest_ := highest_ s;
                 next_heatmap_comp_time_ := next_heatmap_comp_time_ s |} in
    s3 ← (if highest_ s1 <? x' then
            let s2 := {| heatmap_ := g;
                         highest_ := x';
                         next_heatmap_comp_time_ := next_heatmap_comp_time_ s |} in
            if highest_ s2 =? INT16_MAX then shiftStats s2 else Some s2
          else Some s1);
    Some (s3, OK).

(** *** [Heatmap::beforeEachCycle] *)

(** [static_cast<uint16_t>(heat_colors_length) << 9]: a shift of an
    [unsigned int], which is 16 bits wide on the target. *)
Definition decay_threshold (cfg : Config) : Z :=
  to_uint16 (Z.shiftl (heat_colors_length cfg) 9).

Definition beforeEachCycle (cfg : Config) (s : State)
  : option (State * EventHandlerResult) :=
  s' ← (if decay_threshold cfg <? highest_ s then shiftStats s else Some s);
  Some (s', OK).

(** *** [Heatmap::update] *)

(** [v] for one key and the colour sent to its LED. *)
Definition heat_of (s : State) (x : Z) : F32.float :=
  F32.div (F32.of_int x) (F32.of_int (highest_ s)).

Definition paint_cell (cfg : Config) (s : State) (r c : nat)
    (leds : list LedWrite) : option (list LedWrite) :=
  x ← cell (heatmap_ s) r c;
  Some (leds ++ [(r, c, computeColor cfg (heat_of s x))]).

(** [millis_1] and [millis_2] are the values the two calls of [millis()]
    return.  The result carries the calls made to the LED surface, in
    order. *)
Definition update (cfg : Config) (s : State) (millis_1 millis_2 : Z)
  : option (State * list LedWrite) :=
  if negb (next_heatmap_comp_time_ s =? 0)
     && (millis_1 <? next_heatmap_comp_time_ s)
  then Some (s, [])
  else
    let s' := {| heatmap_ := heatmap_ s;
                 highest_ := highest_ s;
                 next_heatmap_comp_time_ := to_uint32 (millis_2 + update_delay cfg) |} in
    leds ← for_loop 0 ROWS (fun r => for_loop 0 COLS (paint_cell cfg s' r)) [];
    Some (s', leds).

(** *** Runs of the plugin *)

Inductive reachable (cfg : Config) : State -> Prop :=
  | reach_init : reachable cfg init_state
  | reach_key s k row col ks s' res :
      reachable cfg s ->
      onKeyswitchEvent s k row col ks = Some (s', res) ->
      reachable cfg s'
  | reach_cycle s s' res :
      reachable cfg s ->
      beforeEachCycle cfg s = Some (s', res) ->
      reachable cfg s'
  | reach_update s t1 t2 s' leds :
      reachable cfg s ->
      update cfg s t1 t2 = Some (s', leds) ->
      reachable cfg s'.

(** [n] consecutive deliveries of the same key event. *)
Fixpoint press_n (n : nat) (s : State) (k : Key) (row col : nat) (ks : Z)
  : option State :=
  match n with
  | O => Some s
  | S n' =>
      p ← onKeyswitchEvent s k row col ks;
      press_n n' (fst p) k row col ks
  end.

(** *** Vocabulary of the statements *)

Definition halve (x : Z) : Z := Z.shiftr x 1.

(** The row whose first [j] counters have been halved. *)
Definition halved_upto (j : nat) (row : list Z) : list Z :=
  (halve <$> take j row) ++ drop j row.

Definition halve_row (row : list Z) : list Z := halve <$> row.
Definition halve_grid (g : Grid) : Grid := halve_row <$> g.

(** The grid whose first [j] rows have been halved. *)
Definition rows_halved_upto (j : nat) (g : Grid) : Grid :=
  (halve_row <$> take j g) ++ drop j g.

(** Every counter lies between 0 and [h]. *)
Definition cells_le (h : Z) (g : Grid) : Prop :=
  forall r c x, cell g r c = Some x -> 0 <= x <= h.

(** What every run maintains, whatever the palette: the grid keeps its
    shape, no counter exceeds [highest_], and [highest_] stays below
    [INT16_MAX]. *)
Definition counters_bounded (s : State) : Prop :=
  wf_grid (heatmap_ s) /\
  cells_le (highest_ s) (heatmap_ s) /\
  highest_ s < INT16_MAX.

(** The [k]-th call a render pass makes to the LED surface, going
    through the matrix row by row. *)
Definition led_at (cfg : Config) (s : State) (k : nat) : option LedWrite :=
  let r := (k / COLS)%nat in
  let c := (k mod COLS)%nat in
  x ← cell (heatmap_ s) r c;
  Some (r, c, computeColor cfg (heat_of s x)).

(** The first [n] calls of a render pass have been made. *)
Definition painted (cfg : Config) (s : State) (n : nat) (leds : list LedWrite)
  : Prop :=
  length leds = n /\ forall k, (k < n)%nat -> leds !! k = led_at cfg s k.

(** [P] holds of the [2^k] integers from [lo] on. *)
Fixpoint check_block (k : nat) (lo : Z) (P : Z -> bool) : bool :=
  match k with
  | O => P lo
  | S k' => check_block k' lo P && check_block k' (lo + 2 ^ Z.of_nat k') P
  end.

(** *** Streams of key events *)

(** The arguments of one call of [onKeyswitchEvent]. *)
Record KeyEvent : Type := mkKeyEvent {
  ev_key : Key;
  ev_row : nat;
  ev_col : nat;
  ev_state : Z
}.

(** The events that get past the two early returns of
    [onKeyswitchEvent]. *)
Definition is_fresh (key_state : Z) : bool :=
  (Z.land key_state INJECTED =? 0) && keyToggledOn key_state.

(** Delivering a list of key events, oldest first. *)
Fixpoint run_events (evs : list KeyEvent) (s : State) : option State :=
  match evs with
  | [] => Some s
  | e :: evs' =>
      p ← onKeyswitchEvent s (ev_key e) (ev_row e) (ev_col e) (ev_state e);
      run_events evs' (fst p)
  end.

Definition hits (r c : nat) (e : KeyEvent) : bool :=
  is_fresh (ev_state e) && (ev_row e =? r)%nat && (ev_col e =? c)%nat.

(** The number of fresh presses of key (r, c) in a list of events. *)
Fixpoint presses_at (r c : nat) (evs : list KeyEvent) : Z :=
  match evs with
  | [] => 0
  | e :: evs' => (if hits r c e then 1 else 0) + presses_at r c evs'
  end.

(** [n] calls of [shiftStats] in a row. *)
Fixpoint iter_shiftStats (n : nat) (s : State) : option State :=
  match n with
  | O => Some s
  | S n' => s' ← shiftStats s; iter_shiftStats n' s'
  end.

(** [highest_] is 1 or the value of some counter. *)
Definition highest_attained (s : State) : Prop :=
  highest_ s = 1 \/ exists r c, cell (heatmap_ s) r c = Some (highest_ s).

(** The events of a stream are all for keys of the matrix. *)
Definition on_matrix (evs : list KeyEvent) : Prop :=
  Forall (fun e => (ev_row e < ROWS)%nat /\ (ev_col e < COLS)%nat) evs.

(** ** Properties of [computeColor] *)

(** A property checked on every byte holds of every byte. *)
Lemma byte_range_check (P : Z -> bool) :
  List.forallb P (List.map Z.of_nat (List.seq 0 256)) = true ->
  forall c, 0 <= c < 256 -> P c = true.
Proof.
  intros H c Hc. rewrite List.forallb_forall in H. apply H.
  apply List.in_map_iff. exists (Z.to_nat c). split; [lia|].
  apply List.in_seq. lia.
Qed.

(** With [fb = 0] and both indices equal, a channel comes back as it is
    stored. *)
Lemma blend_same_stop c : 0 <= c < 256 -> blend c c F32.zero = c.
Proof.
  intros Hc. apply Z.eqb_eq.
  apply (byte_range_check (fun c => blend c c F32.zero =? c)); [|exact Hc].
  vm_compute. reflexivity.
Qed.

Lemma ge_one_not_le_zero v :
  F32.leb (F32.of_int 1) v = true -> F32.leb v (F32.of_int 0) = false.
Proof.
  destruct v as [[|]|[|]| |[|] m e]; vm_compute; congruence.
Qed.

Lemma lt_zero_le_zero v :
  F32.ltb v (F32.of_int 0) = true -> F32.leb v (F32.of_int 0) = true.
Proof.
  destruct v as [[|]|[|]| |[|] m e]; vm_compute; congruence.
Qed.

Lemma computeColor_same_stop cfg v i :
  computeColor_indices cfg v = (i, i, F32.zero) ->
  cRGB.wf (heat_colors cfg (Z.to_nat i)) ->
  computeColor cfg v = heat_colors cfg (Z.to_nat i).
Proof.
  intros Hi (Hb & Hg & Hr). unfold computeColor. rewrite Hi.
  rewrite !blend_same_stop by assumption.
  destruct (heat_colors cfg (Z.to_nat i)); reflexivity.
Qed.

Lemma indices_0_8 cfg :
  heat_colors_length cfg = 4 ->
  computeColor_indices cfg F32.lit_0_8 = (2, 3, S754_finite false 13421776 (-25)).
Proof.
  intros H. unfold computeColor_indices. rewrite H. vm_compute. reflexivity.
Qed.

(** The literal is the binary32 number nearest to 4/5. *)
Lemma lit_0_8_nearest : F32.div (F32.of_int 4) (F32.of_int 5) = F32.lit_0_8.
Proof. vm_compute. reflexivity. Qed.

(** C3. For a palette of at least two stops whose channels are bytes:
    an input [v <= 0] yields the first stop exactly, an input [v >= 1]
    yields the last stop exactly, and a negative input yields the same
    colour as the input 0. *)
Theorem computeColor_clamp cfg v :
  2 <= heat_colors_length cfg <= 255 ->
  cRGB.wf (heat_colors cfg 0%nat) ->
  cRGB.wf (heat_colors cfg (Z.to_nat (heat_colors_length cfg - 1))) ->
  (F32.leb v (F32.of_int 0) = true ->
     computeColor cfg v = heat_colors cfg 0%nat) /\
  (F32.leb (F32.of_int 1) v = true ->
     computeColor cfg v = heat_colors cfg (Z.to_nat (heat_colors_length cfg - 1))) /\
  (F32.ltb v (F32.of_int 0) = true ->
     computeColor cfg v = computeColor cfg (F32.of_int 0)).
Proof.
  intros Hlen Hfirst Hlast.
  assert (Hlow : forall w, F32.leb w (F32.of_int 0) = true ->
                   computeColor cfg w = heat_colors cfg 0%nat).
  { intros w Hw. apply (computeColor_same_stop cfg w 0); [|exact Hfirst].
    unfold computeColor_indices. rewrite Hw. reflexivity. }
  split; [apply Hlow|]. split.
  - intros Hv.
    assert (Hidx : to_uint8 (heat_colors_length cfg - 1) = heat_colors_length cfg - 1).
    { unfold to_uint8, UINT8_MOD. apply Z.mod_small. lia. }
    rewrite <- Hidx in Hlast |- * at 1.
    apply computeColor_same_stop; [|rewrite Hidx in *; exact Hlast].
    unfold computeColor_indices.
    rewrite (ge_one_not_le_zero v Hv), Hv. reflexivity.
  - intros Hv. rewrite (Hlow v (lt_zero_le_zero v Hv)).
    symmetry. apply Hlow. vm_compute. reflexivity.
Qed.

(** C2 (amended). For the input 0.8 the indices are 2 and 3 and the
    blend factor is 0.4 up to rounding.  With the default palette, whose
    red components are 0, 25, 255, 255, the colour returned is blue 25,
    green 162, red 255.  The red component is 117 for every four-stop
    palette whose last two red components are 25 and 255, as in the
    example of the source comment. *)
Theorem computeColor_0_8 :
  computeColor_indices default_config F32.lit_0_8
    = (2, 3, S754_finite false 13421776 (-25)) /\
  computeColor default_config F32.lit_0_8 = cRGB.mk 25 162 255 /\
  (forall cfg,
     heat_colors_length cfg = 4 ->
     cRGB.r (heat_colors cfg 2%nat) = 25 ->
     cRGB.r (heat_colors cfg 3%nat) = 255 ->
     cRGB.r (computeColor cfg F32.lit_0_8) = 117).
Proof.
  split; [|split].
  - vm_compute. reflexivity.
  - vm_compute. reflexivity.
  - intros cfg Hlen H2 H3. unfold computeColor.
    rewrite (indices_0_8 cfg Hlen). cbn [cRGB.r].
    change (Z.to_nat 2) with 2%nat. change (Z.to_nat 3) with 3%nat.
    rewrite H2, H3. vm_compute. reflexivity.
Qed.

(** ** Loops and array accesses *)

Lemma for_loop_inv {St : Type} (P : nat -> St -> Prop) body from n s :
  P from s ->
  (forall j t, (from <= j < from + n)%nat -> P j t ->
               exists t', body j t = Some t' /\ P (S j) t') ->
  exists s', for_loop from n body s = Some s' /\ P (from + n)%nat s'.
Proof.
  revert from s. induction n as [|n IH]; intros from s HP Hstep; simpl.
  - exists s. rewrite Nat.add_0_r. auto.
  - destruct (Hstep from s) as (t' & Hb & HP'); [lia|exact HP|].
    rewrite Hb. simpl.
    destruct (IH (S from) t' HP') as (s' & Hl & HPs').
    { intros j t Hj. apply Hstep. lia. }
    exists s'. split; [exact Hl|].
    replace (from + S n)%nat with (S from + n)%nat by lia. exact HPs'.
Qed.

Lemma cell_row g r c row : g !! r = Some row -> cell g r c = row !! c.
Proof. intros H. unfold cell. rewrite H. reflexivity. Qed.

Lemma set_cell_row g r c v row :
  g !! r = Some row -> (c < length row)%nat ->
  set_cell g r c v = Some (<[r := <[c := v]> row]> g).
Proof.
  intros H Hc. unfold set_cell. rewrite H. simpl.
  destruct (decide (c < length row)%nat); [reflexivity|contradiction].
Qed.

Lemma wf_grid_row g r :
  wf_grid g -> (r < ROWS)%nat ->
  exists row, g !! r = Some row /\ length row = COLS.
Proof.
  intros [Hl Hr] Hlt.
  destruct (lookup_lt_is_Some_2 g r) as [row Hrow]; [lia|].
  exists row. split; [exact Hrow|].
  exact (proj1 (Forall_lookup _ _) Hr r row Hrow).
Qed.

Lemma wf_grid_cell g r c :
  wf_grid g -> (r < ROWS)%nat -> (c < COLS)%nat -> is_Some (cell g r c).
Proof.
  intros Hwf Hr Hc. destruct (wf_grid_row g r Hwf Hr) as (row & Hrow & Hlen).
  rewrite (cell_row _ _ _ _ Hrow). apply lookup_lt_is_Some_2. lia.
Qed.

Lemma cell_in_range g r c x :
  wf_grid g -> cell g r c = Some x -> (r < ROWS)%nat /\ (c < COLS)%nat.
Proof.
  intros [Hl Hr] H. unfold cell in H.
  destruct (g !! r) as [row|] eqn:Hrow; [|discriminate]. simpl in H.
  split.
  - rewrite <- Hl. exact (lookup_lt_Some _ _ _ Hrow).
  - rewrite <- (proj1 (Forall_lookup _ _) Hr r row Hrow).
    exact (lookup_lt_Some _ _ _ H).
Qed.

Lemma halved_upto_step j row x :
  row !! j = Some x ->
  <[j := halve x]> (halved_upto j row) = halved_upto (S j) row.
Proof.
  intros Hx. unfold halved_upto.
  pose proof (lookup_lt_Some _ _ _ Hx) as Hj.
  rewrite (take_S_r _ _ _ Hx), fmap_app, <- app_assoc. simpl.
  rewrite (drop_S _ _ _ Hx).
  rewrite insert_app_r_alt; rewrite length_fmap, length_take_le; try lia.
  rewrite Nat.sub_diag. reflexivity.
Qed.

(** The inner loop of [shiftStats] halves row [r] and nothing else. *)
Lemma shift_row g r row :
  g !! r = Some row -> length row = COLS ->
  for_loop 0 COLS (shift_cell r) g = Some (<[r := halve_row row]> g).
Proof.
  intros Hrow Hlen.
  destruct (for_loop_inv (fun j t => t = <[r := halved_upto j row]> g)
              (shift_cell r) 0 COLS g) as (g' & Hloop & Hg').
  - unfold halved_upto. simpl. rewrite drop_0.
    symmetry. apply list_insert_id. exact Hrow.
  - intros j t Hj ->.
    pose proof (lookup_lt_Some _ _ _ Hrow) as Hr.
    destruct (lookup_lt_is_Some_2 row j) as [x Hx]; [lia|].
    assert (Ht : <[r := halved_upto j row]> g !! r = Some (halved_upto j row))
      by (apply list_lookup_insert_eq; exact Hr).
    assert (Hcell : halved_upto j row !! j = Some x).
    { unfold halved_upto. rewrite lookup_app_r;
        rewrite length_fmap, length_take_le; try lia.
      rewrite Nat.sub_diag, lookup_drop, Nat.add_0_r. exact Hx. }
    exists (<[r := halved_upto (S j) row]> g). split; [|reflexivity].
    unfold shift_cell. rewrite (cell_row _ _ _ _ Ht), Hcell. simpl.
    rewrite (set_cell_row _ _ _ _ _ Ht).
    + rewrite list_insert_insert_eq. fold (halve x).
      rewrite (halved_upto_step _ _ _ Hx). reflexivity.
    + exact (lookup_lt_Some _ _ _ Hcell).
  - rewrite Hloop, Hg'. simpl. unfold halved_upto, halve_row.
    rewrite take_ge, drop_ge, app_nil_r by lia. reflexivity.
Qed.

Lemma rows_halved_upto_step j g row :
  g !! j = Some row ->
  <[j := halve_row row]> (rows_halved_upto j g) = rows_halved_upto (S j) g.
Proof.
  intros Hx. unfold rows_halved_upto.
  pose proof (lookup_lt_Some _ _ _ Hx) as Hj.
  rewrite (take_S_r _ _ _ Hx), fmap_app, <- app_assoc. simpl.
  rewrite (drop_S _ _ _ Hx).
  rewrite insert_app_r_alt; rewrite length_fmap, length_take_le; try lia.
  rewrite Nat.sub_diag. reflexivity.
Qed.

(** The two nested loops of [shiftStats] halve every counter. *)
Lemma shift_grid g :
  wf_grid g ->
  for_loop 0 ROWS (fun r => for_loop 0 COLS (shift_cell r)) g
    = Some (halve_grid g).
Proof.
  intros Hwf.
  destruct (for_loop_inv (fun j t => t = rows_halved_upto j g)
              (fun r => for_loop 0 COLS (shift_cell r)) 0 ROWS g)
    as (g' & Hloop & Hg').
  - unfold rows_halved_upto. simpl. rewrite drop_0. reflexivity.
  - intros j t Hj ->.
    destruct (wf_grid_row g j Hwf) as (row & Hrow & Hlen); [lia|].
    pose proof (lookup_lt_Some _ _ _ Hrow) as Hr.
    exists (rows_halved_upto (S j) g). split; [|reflexivity].
    rewrite (shift_row _ j row).
    + rewrite (rows_halved_upto_step _ _ _ Hrow). reflexivity.
    + unfold rows_halved_upto. rewrite lookup_app_r;
        rewrite length_fmap, length_take_le; try lia.
      rewrite Nat.sub_diag, lookup_drop, Nat.add_0_r. exact Hrow.
    + exact Hlen.
  - rewrite Hloop, Hg'. simpl. unfold rows_halved_upto, halve_grid.
    destruct Hwf as [Hl _].
    rewrite take_ge, drop_ge, app_nil_r by lia. reflexivity.
Qed.

Lemma halve_div x : halve x = x / 2.
Proof. unfold halve. rewrite Z.shiftr_div_pow2 by lia. reflexivity. Qed.

Lemma shiftStats_eq s :
  wf_grid (heatmap_ s) ->
  shiftStats s = Some {| heatmap_ := halve_grid (heatmap_ s);
                         highest_ := halve (highest_ s);
                         next_heatmap_comp_time_ := next_heatmap_comp_time_ s |}.
Proof.
  intros Hwf. unfold shiftStats. rewrite (shift_grid _ Hwf). reflexivity.
Qed.

Lemma wf_grid_halved g : wf_grid g -> wf_grid (halve_grid g).
Proof.
  intros [Hl Hr]. unfold halve_grid. split.
  - rewrite length_fmap. exact Hl.
  - apply Forall_fmap. eapply Forall_impl; [exact Hr|].
    intros row Hrow. simpl. unfold halve_row. rewrite length_fmap. exact Hrow.
Qed.

Lemma cell_halved g r c :
  cell (halve_grid g) r c = halve <$> cell g r c.
Proof.
  unfold cell, halve_grid. rewrite list_lookup_fmap.
  destruct (g !! r) as [row|]; simpl; [|reflexivity].
  apply list_lookup_fmap.
Qed.

Lemma grid_eq (g1 g2 : Grid) :
  length g1 = length g2 ->
  (forall r c, cell g1 r c = cell g2 r c) ->
  g1 = g2.
Proof.
  intros Hlen Hcell. apply list_eq. intros r.
  destruct (g1 !! r) as [row1|] eqn:H1.
  - destruct (g2 !! r) as [row2|] eqn:H2.
    + f_equal. apply list_eq. intros c.
      specialize (Hcell r c). unfold cell in Hcell.
      rewrite H1, H2 in Hcell. exact Hcell.
    + apply lookup_lt_Some in H1. apply lookup_ge_None in H2. lia.
  - destruct (g2 !! r) as [row2|] eqn:H2; [|reflexivity].
    apply lookup_lt_Some in H2. apply lookup_ge_None in H1. lia.
Qed.

(** ** [shiftStats] *)

(** C4. One call of [shiftStats] replaces every counter by the floor of
    its half, replaces [highest_] by the floor of its half, and leaves
    the shape of the grid and the render schedule as they were. *)
Theorem shiftStats_halves s :
  wf_grid (heatmap_ s) ->
  exists s',
    shiftStats s = Some s' /\
    wf_grid (heatmap_ s') /\
    (forall r c,
       cell (heatmap_ s') r c = (fun x => x / 2) <$> cell (heatmap_ s) r c) /\
    highest_ s' = highest_ s / 2 /\
    next_heatmap_comp_time_ s' = next_heatmap_comp_time_ s.
Proof.
  intros Hwf. eexists. split; [apply shiftStats_eq; exact Hwf|]. simpl.
  split; [apply wf_grid_halved; exact Hwf|]. split; [|split].
  - intros r c. rewrite cell_halved.
    destruct (cell (heatmap_ s) r c); simpl; [|reflexivity].
    rewrite halve_div. reflexivity.
  - apply halve_div.
  - reflexivity.
Qed.

Lemma halve_twice x : halve (halve x) = x / 4.
Proof. rewrite !halve_div. rewrite Z.div_div by lia. reflexivity. Qed.

Lemma halve_fixed x : 0 <= x -> (halve (halve x) = halve x <-> x <= 1).
Proof.
  clear ROWS COLS Key INJECTED keyToggledOn.
  intros Hx. rewrite !halve_div. split; intros H; Z.div_mod_to_equations; lia.
Qed.

(** C9 (amended). Two calls of [shiftStats] in succession replace every
    counter and [highest_] by the floor of a quarter of its old value.
    When no counter is negative, the second call changes nothing exactly
    when [highest_] and every counter were at most 1 to begin with. *)
Theorem shiftStats_twice s :
  wf_grid (heatmap_ s) ->
  exists s1 s2,
    shiftStats s = Some s1 /\
    shiftStats s1 = Some s2 /\
    highest_ s2 = highest_ s / 4 /\
    (forall r c,
       cell (heatmap_ s2) r c = (fun x => x / 4) <$> cell (heatmap_ s) r c) /\
    (0 <= highest_ s ->
     (forall r c x, cell (heatmap_ s) r c = Some x -> 0 <= x) ->
     (s2 = s1 <->
      highest_ s <= 1 /\
      forall r c x, cell (heatmap_ s) r c = Some x -> x <= 1)).
Proof.
  intros Hwf. do 2 eexists.
  split; [apply shiftStats_eq; exact Hwf|].
  split; [apply shiftStats_eq; apply wf_grid_halved; exact Hwf|]. simpl.
  split; [apply halve_twice|]. split.
  - intros r c. rewrite !cell_halved.
    destruct (cell (heatmap_ s) r c); simpl; [|reflexivity].
    rewrite halve_twice. reflexivity.
  - intros Hh Hpos. split.
    + intros Heq. injection Heq as Hg Hhi. split.
      * apply halve_fixed; assumption.
      * intros r c x Hx. apply halve_fixed; [exact (Hpos r c x Hx)|].
        assert (Hc : cell (halve_grid (halve_grid (heatmap_ s))) r c
                     = cell (halve_grid (heatmap_ s)) r c) by (rewrite Hg; reflexivity).
        rewrite !cell_halved, Hx in Hc. simpl in Hc. congruence.
    + intros [Hhi Hcells]. f_equal.
      * apply grid_eq.
        { unfold halve_grid. rewrite !length_fmap. reflexivity. }
        intros r c. rewrite !cell_halved.
        destruct (cell (heatmap_ s) r c) as [x|] eqn:Hx; simpl; [|reflexivity].
        f_equal. apply halve_fixed; [exact (Hpos r c x Hx)|exact (Hcells r c x Hx)].
      * apply halve_fixed; assumption.
Qed.

(** ** [onKeyswitchEvent] *)

Lemma set_cell_wf g r c v :
  wf_grid g -> (r < ROWS)%nat -> (c < COLS)%nat ->
  exists g',
    set_cell g r c v = Some g' /\
    wf_grid g' /\
    cell g' r c = Some v /\
    (forall r' c', (r', c') <> (r, c) -> cell g' r' c' = cell g r' c').
Proof.
  intros Hwf Hr Hc.
  destruct (wf_grid_row g r Hwf Hr) as (row & Hrow & Hlen).
  pose proof (lookup_lt_Some _ _ _ Hrow) as Hrl.
  exists (<[r := <[c := v]> row]> g).
  split; [apply set_cell_row; [exact Hrow|lia]|].
  destruct Hwf as [Hl Hrows]. split; [|split].
  - split; [rewrite length_insert; exact Hl|].
    apply Forall_insert; [exact Hrows|]. rewrite length_insert. exact Hlen.
  - unfold cell. rewrite list_lookup_insert_eq by exact Hrl. simpl.
    apply list_lookup_insert_eq. lia.
  - intros r' c' Hne. unfold cell.
    destruct (decide (r' = r)) as [->|Hr'].
    + rewrite list_lookup_insert_eq by exact Hrl. rewrite Hrow. simpl.
      apply list_lookup_insert_ne. congruence.
    + rewrite list_lookup_insert_ne by congruence. reflexivity.
Qed.

(** What a fresh key-down does, when the counter it bumps does not wrap. *)
Lemma onKeyswitchEvent_fresh s k row col ks x :
  wf_grid (heatmap_ s) ->
  Z.land ks INJECTED = 0 -> keyToggledOn ks = true ->
  cell (heatmap_ s) row col = Some x -> 0 <= x < UINT16_MOD - 1 ->
  exists g',
    set_cell (heatmap_ s) row col (x + 1) = Some g' /\
    wf_grid g' /\
    cell g' row col = Some (x + 1) /\
    (forall r c, (r, c) <> (row, col) -> cell g' r c = cell (heatmap_ s) r c) /\
    onKeyswitchEvent s k row col ks =
      if highest_ s <? x + 1 then
        if x + 1 =? INT16_MAX then
          Some ({| heatmap_ := halve_grid g';
                   highest_ := halve (x + 1);
                   next_heatmap_comp_time_ := next_heatmap_comp_time_ s |}, OK)
        else
          Some ({| heatmap_ := g';
                   highest_ := x + 1;
                   next_heatmap_comp_time_ := next_heatmap_comp_time_ s |}, OK)
      else
        Some ({| heatmap_ := g';
                 highest_ := highest_ s;
                 next_heatmap_comp_time_ := next_heatmap_comp_time_ s |}, OK).
Proof.
  intros Hwf Hinj Hon Hx Hrange.
  destruct (cell_in_range _ _ _ _ Hwf Hx) as [Hr Hc].
  destruct (set_cell_wf (heatmap_ s) row col (x + 1) Hwf Hr Hc)
    as (g' & Hset & Hwf' & Hnew & Hold).
  exists g'. repeat (split; [assumption|]).
  unfold onKeyswitchEvent. rewrite Hinj, Hon, Hx. simpl.
  assert (Hx1 : to_uint16 (x + 1) = x + 1).
  { unfold to_uint16. apply Z.mod_small. unfold UINT16_MOD in *. lia. }
  rewrite Hx1, Hset. simpl.
  destruct (highest_ s <? x + 1); [|reflexivity].
  destruct (x + 1 =? INT16_MAX); [|reflexivity].
  rewrite shiftStats_eq by exact Hwf'. reflexivity.
Qed.

Lemma onKeyswitchEvent_injected s k row col ks :
  Z.land ks INJECTED <> 0 -> onKeyswitchEvent s k row col ks = Some (s, OK).
Proof.
  intros Hinj. unfold onKeyswitchEvent.
  apply Z.eqb_neq in Hinj. rewrite Hinj. reflexivity.
Qed.

Lemma onKeyswitchEvent_not_toggled s k row col ks :
  keyToggledOn ks = false -> onKeyswitchEvent s k row col ks = Some (s, OK).
Proof.
  intros Hoff. unfold onKeyswitchEvent. rewrite Hoff.
  destruct (Z.land ks INJECTED =? 0); reflexivity.
Qed.

(** C7. A key event with the [INJECTED] bit set, and a key event that is
    not a fresh press, leave the whole state as it is; whatever the
    event, the status returned is [OK], and an event for a key of the
    matrix always returns. *)
Theorem onKeyswitchEvent_filter s k row col ks :
  (Z.land ks INJECTED <> 0 -> onKeyswitchEvent s k row col ks = Some (s, OK)) /\
  (keyToggledOn ks = false -> onKeyswitchEvent s k row col ks = Some (s, OK)) /\
  (forall s' res, onKeyswitchEvent s k row col ks = Some (s', res) -> res = OK) /\
  (wf_grid (heatmap_ s) -> (row < ROWS)%nat -> (col < COLS)%nat ->
   exists s', onKeyswitchEvent s k row col ks = Some (s', OK)).
Proof.
  split; [|split; [|split]].
  - apply onKeyswitchEvent_injected.
  - apply onKeyswitchEvent_not_toggled.
  - intros s' res. unfold onKeyswitchEvent.
    destruct (negb (Z.land ks INJECTED =? 0)); [congruence|].
    destruct (negb (keyToggledOn ks)); [congruence|].
    destruct (cell (heatmap_ s) row col); simpl; [|discriminate].
    destruct (set_cell _ _ _ _); simpl; [|discriminate].
    destruct (if _ <? _ then _ else _); simpl; congruence.
  - intros Hwf Hr Hc. unfold onKeyswitchEvent.
    destruct (negb (Z.land ks INJECTED =? 0)); [eauto|].
    destruct (negb (keyToggledOn ks)); [eauto|].
    destruct (wf_grid_cell _ _ _ Hwf Hr Hc) as [x Hx]. rewrite Hx. simpl.
    destruct (set_cell_wf (heatmap_ s) row col (to_uint16 (x + 1)) Hwf Hr Hc)
      as (g' & Hset & Hwf' & _). rewrite Hset. simpl.
    destruct (_ <? _); simpl; [|eauto].
    destruct (_ =? _); simpl; [|eauto].
    rewrite shiftStats_eq by exact Hwf'. simpl. eauto.
Qed.

(** ** What every run maintains *)

(** Closes the arithmetic goals about halved counters. *)
Ltac halving :=
  simpl; unfold INT16_MAX, UINT16_MOD in *; rewrite ?halve_div;
  Z.div_mod_to_equations; lia.

Lemma cells_le_mono h h' g : h <= h' -> cells_le h g -> cells_le h' g.
Proof. intros Hh Hg r c x Hx. specialize (Hg r c x Hx). lia. Qed.

Lemma cells_le_halved h g : cells_le h g -> cells_le (halve h) (halve_grid g).
Proof.
  intros Hg r c y Hy. rewrite cell_halved in Hy.
  destruct (cell g r c) as [x|] eqn:Hx; [|discriminate].
  injection Hy as <-. specialize (Hg r c x Hx).
  rewrite !halve_div. Z.div_mod_to_equations. lia.
Qed.

Lemma cells_le_bump h g g' row col v :
  cells_le h g ->
  cell g' row col = Some v ->
  (forall r c, (r, c) <> (row, col) -> cell g' r c = cell g r c) ->
  0 <= v <= h ->
  cells_le h g'.
Proof.
  intros Hg Hnew Hold Hv r c x Hx.
  destruct (decide ((r, c) = (row, col))) as [Heq|Hne].
  - injection Heq as -> ->. rewrite Hnew in Hx. injection Hx as <-. exact Hv.
  - rewrite (Hold r c Hne) in Hx. exact (Hg r c x Hx).
Qed.

Lemma counters_bounded_init : counters_bounded init_state.
Proof.
  split; [|split].
  - split; simpl.
    + apply length_replicate.
    + apply Forall_replicate. apply length_replicate.
  - intros r c x Hx. unfold cell in Hx. simpl in Hx.
    destruct (replicate ROWS (replicate COLS 0) !! r) as [row|] eqn:Hrow;
      [|discriminate].
    apply lookup_replicate in Hrow as [-> _]. simpl in Hx.
    apply lookup_replicate in Hx as [-> _]. simpl. lia.
  - simpl. unfold INT16_MAX. lia.
Qed.

Lemma counters_bounded_key s k row col ks s' res :
  counters_bounded s ->
  onKeyswitchEvent s k row col ks = Some (s', res) ->
  counters_bounded s' /\ (1 <= highest_ s -> 1 <= highest_ s').
Proof.
  intros (Hwf & Hle & Hmax) Hev.
  destruct (decide (Z.land ks INJECTED = 0)) as [Hinj|Hinj].
  2:{ rewrite onKeyswitchEvent_injected in Hev by exact Hinj.
      injection Hev as <- <-.
      split; [exact (conj Hwf (conj Hle Hmax))|auto]. }
  destruct (keyToggledOn ks) eqn:Hon.
  2:{ rewrite onKeyswitchEvent_not_toggled in Hev by exact Hon.
      injection Hev as <- <-.
      split; [exact (conj Hwf (conj Hle Hmax))|auto]. }
  destruct (cell (heatmap_ s) row col) as [x|] eqn:Hx.
  2:{ unfold onKeyswitchEvent in Hev. rewrite Hinj, Hon, Hx in Hev. discriminate. }
  pose proof (Hle row col x Hx) as Hxle. unfold INT16_MAX in *.
  destruct (onKeyswitchEvent_fresh s k row col ks x Hwf Hinj Hon Hx)
    as (g' & _ & Hwf' & Hnew & Hold & Hres); [unfold UINT16_MOD; lia|].
  rewrite Hres in Hev. unfold INT16_MAX in *. clear Hres.
  destruct (highest_ s <? x + 1) eqn:Hlt.
  - apply Z.ltb_lt in Hlt.
    destruct (x + 1 =? 32767) eqn:Hfull; injection Hev as <- <-; simpl;
      unfold INT16_MAX.
    + apply Z.eqb_eq in Hfull. split; [split; [|split]|].
      * apply wf_grid_halved. exact Hwf'.
      * apply cells_le_halved.
        apply (cells_le_bump (x + 1) (heatmap_ s) g' row col (x + 1));
          try assumption; [|lia].
        apply (cells_le_mono (highest_ s)); [lia|exact Hle].
      * halving.
      * intros _. halving.
    + apply Z.eqb_neq in Hfull. split; [split; [|split]|].
      * exact Hwf'.
      * apply (cells_le_bump (x + 1) (heatmap_ s) g' row col (x + 1));
          try assumption; [|lia].
        apply (cells_le_mono (highest_ s)); [lia|exact Hle].
      * halving.
      * halving.
  - apply Z.ltb_ge in Hlt. injection Hev as <- <-; simpl.
    split; [split; [|split]|].
    + exact Hwf'.
    + apply (cells_le_bump (highest_ s) (heatmap_ s) g' row col (x + 1));
        try assumption. lia.
    + exact Hmax.
    + auto.
Qed.

Lemma decay_threshold_small cfg :
  0 <= heat_colors_length cfg <= 127 ->
  decay_threshold cfg = heat_colors_length cfg * 512.
Proof.
  intros Hlen. unfold decay_threshold, to_uint16, UINT16_MOD.
  rewrite Z.shiftl_mul_pow2 by lia. change (2 ^ 9) with 512.
  apply Z.mod_small. lia.
Qed.

Lemma beforeEachCycle_eq cfg s :
  wf_grid (heatmap_ s) ->
  beforeEachCycle cfg s =
    if decay_threshold cfg <? highest_ s then
      Some ({| heatmap_ := halve_grid (heatmap_ s);
               highest_ := halve (highest_ s);
               next_heatmap_comp_time_ := next_heatmap_comp_time_ s |}, OK)
    else Some (s, OK).
Proof.
  intros Hwf. unfold beforeEachCycle.
  destruct (decay_threshold cfg <? highest_ s); [|reflexivity].
  rewrite shiftStats_eq by exact Hwf. reflexivity.
Qed.

Lemma counters_bounded_cycle cfg s s' res :
  counters_bounded s ->
  beforeEachCycle cfg s = Some (s', res) ->
  counters_bounded s' /\
  (0 < decay_threshold cfg -> 1 <= highest_ s -> 1 <= highest_ s').
Proof.
  intros (Hwf & Hle & Hmax) Hev. rewrite beforeEachCycle_eq in Hev by exact Hwf.
  destruct (decay_threshold cfg <? highest_ s) eqn:Hlt;
    injection Hev as <- <-; simpl.
  - apply Z.ltb_lt in Hlt. split; [split; [|split]|].
    + apply wf_grid_halved. exact Hwf.
    + apply cells_le_halved. exact Hle.
    + halving.
    + intros Hthr _. halving.
  - split; [exact (conj Hwf (conj Hle Hmax))|auto].
Qed.

Lemma update_counters cfg s t1 t2 s' leds :
  update cfg s t1 t2 = Some (s', leds) ->
  heatmap_ s' = heatmap_ s /\ highest_ s' = highest_ s.
Proof.
  unfold update. intros H.
  destruct (negb _ && _); [injection H as <- <-; auto|].
  destruct (for_loop _ _ _ _); simpl in H; [|discriminate].
  injection H as <- <-. auto.
Qed.

Lemma reachable_bounded cfg s : reachable cfg s -> counters_bounded s.
Proof.
  induction 1 as [|s k row col ks s' res _ IH Hev
                  |s s' res _ IH Hev
                  |s t1 t2 s' leds _ IH Hev].
  - apply counters_bounded_init.
  - exact (proj1 (counters_bounded_key _ _ _ _ _ _ _ IH Hev)).
  - exact (proj1 (counters_bounded_cycle _ _ _ _ IH Hev)).
  - destruct (update_counters _ _ _ _ _ _ Hev) as [Hg Hh].
    unfold counters_bounded. rewrite Hg, Hh. exact IH.
Qed.

Lemma reachable_highest_pos cfg s :
  0 < decay_threshold cfg -> reachable cfg s -> 1 <= highest_ s.
Proof.
  intros Hthr.
  induction 1 as [|s k row col ks s' res Hs IH Hev
                  |s s' res Hs IH Hev
                  |s t1 t2 s' leds Hs IH Hev].
  - simpl. lia.
  - exact (proj2 (counters_bounded_key _ _ _ _ _ _ _
                    (reachable_bounded _ _ Hs) Hev) IH).
  - exact (proj2 (counters_bounded_cycle _ _ _ _
                    (reachable_bounded _ _ Hs) Hev) Hthr IH).
  - destruct (update_counters _ _ _ _ _ _ Hev) as [_ Hh]. rewrite Hh. exact IH.
Qed.

(** The 16-bit threshold of the cycle hook is 0 for no palette length
    of a [uint8_t] other than 0 and 128. *)
Lemma decay_threshold_pos cfg :
  1 <= heat_colors_length cfg <= 255 ->
  heat_colors_length cfg <> 128 ->
  0 < decay_threshold cfg.
Proof.
  clear ROWS COLS Key INJECTED keyToggledOn.
  intros Hlen Hne. unfold decay_threshold, to_uint16, UINT16_MOD.
  rewrite Z.shiftl_mul_pow2 by lia. change (2 ^ 9) with 512.
  Z.div_mod_to_equations. lia.
Qed.


(** C10. In every state a run can reach, whatever the palette and
    however rarely the cycle hook runs, [highest_] and every counter are
    at most [INT16_MAX], far below the 65535 a 16-bit counter can hold:
    a fresh press that brings a counter to [INT16_MAX] halves all of
    them at once. *)
Theorem counters_never_exceed_INT16_MAX cfg s :
  reachable cfg s ->
  highest_ s <= INT16_MAX /\
  (forall r c x, cell (heatmap_ s) r c = Some x -> 0 <= x <= INT16_MAX) /\
  (forall k row col ks,
     Z.land ks INJECTED = 0 -> keyToggledOn ks = true ->
     cell (heatmap_ s) row col = Some (INT16_MAX - 1) ->
     exists g',
       set_cell (heatmap_ s) row col INT16_MAX = Some g' /\
       onKeyswitchEvent s k row col ks =
         Some ({| heatmap_ := halve_grid g';
                  highest_ := 16383;
                  next_heatmap_comp_time_ := next_heatmap_comp_time_ s |}, OK)).
Proof.
  intros Hs. destruct (reachable_bounded cfg s Hs) as (Hwf & Hle & Hmax).
  split; [lia|]. split.
  - intros r c x Hx. specialize (Hle r c x Hx). lia.
  - intros k row col ks Hinj Hon Hx.
    destruct (onKeyswitchEvent_fresh s k row col ks _ Hwf Hinj Hon Hx)
      as (g' & Hset & _ & _ & _ & Hres); [unfold INT16_MAX, UINT16_MOD; lia|].
    exists g'. split; [exact Hset|]. rewrite Hres.
    replace (highest_ s <? INT16_MAX - 1 + 1) with true
      by (symmetry; apply Z.ltb_lt; lia).
    reflexivity.
Qed.

(** ** Repeated presses of one key *)

(** One fresh press of a key whose counter stays below [INT16_MAX]:
    the counter goes up by one, [highest_] follows it, nothing is
    halved. *)
Lemma press_below_threshold s k row col ks x :
  counters_bounded s ->
  Z.land ks INJECTED = 0 -> keyToggledOn ks = true ->
  cell (heatmap_ s) row col = Some x -> x + 1 < INT16_MAX ->
  exists s1,
    onKeyswitchEvent s k row col ks = Some (s1, OK) /\
    counters_bounded s1 /\
    cell (heatmap_ s1) row col = Some (x + 1) /\
    highest_ s1 = Z.max (highest_ s) (x + 1) /\
    (forall r c, (r, c) <> (row, col) ->
       cell (heatmap_ s1) r c = cell (heatmap_ s) r c).
Proof.
  intros Hb Hinj Hon Hx Hlt.
  pose proof Hb as (Hwf & Hle & Hmax).
  pose proof (Hle row col x Hx) as Hxle.
  destruct (onKeyswitchEvent_fresh s k row col ks x Hwf Hinj Hon Hx)
    as (g' & _ & Hwf' & Hnew & Hold & Hres);
    [unfold INT16_MAX, UINT16_MOD in *; lia|].
  replace (x + 1 =? INT16_MAX) with false in Hres
    by (symmetry; apply Z.eqb_neq; lia).
  destruct (highest_ s <? x + 1) eqn:Hcmp;
    [apply Z.ltb_lt in Hcmp|apply Z.ltb_ge in Hcmp];
    (eexists; split; [exact Hres|];
     split; [exact (proj1 (counters_bounded_key _ _ _ _ _ _ _ Hb Hres))|];
     simpl; split; [exact Hnew|]; split; [lia|exact Hold]).
Qed.

Lemma press_n_climb m : forall s k row col ks x,
  counters_bounded s ->
  Z.land ks INJECTED = 0 -> keyToggledOn ks = true ->
  cell (heatmap_ s) row col = Some x -> x + Z.of_nat m < INT16_MAX ->
  exists sm,
    press_n m s k row col ks = Some sm /\
    counters_bounded sm /\
    cell (heatmap_ sm) row col = Some (x + Z.of_nat m) /\
    highest_ sm = Z.max (highest_ s) (x + Z.of_nat m) /\
    (forall r c, (r, c) <> (row, col) ->
       cell (heatmap_ sm) r c = cell (heatmap_ s) r c).
Proof.
  induction m as [|m IH]; intros s k row col ks x Hb Hinj Hon Hx Hlt.
  - exists s. simpl. rewrite Z.add_0_r.
    pose proof (proj1 (proj2 Hb) row col x Hx).
    split; [reflexivity|]. split; [exact Hb|]. split; [exact Hx|].
    split; [lia|]. reflexivity.
  - destruct (press_below_threshold s k row col ks x Hb Hinj Hon Hx)
      as (s1 & Hstep & Hb1 & Hx1 & Hh1 & Hold1); [lia|].
    destruct (IH s1 k row col ks (x + 1) Hb1 Hinj Hon Hx1)
      as (sm & Hrun & Hbm & Hxm & Hhm & Holdm); [lia|].
    exists sm. simpl. rewrite Hstep. simpl.
    split; [exact Hrun|]. split; [exact Hbm|].
    split; [rewrite Hxm; f_equal; lia|].
    split; [rewrite Hhm, Hh1; lia|].
    intros r c Hne. rewrite (Holdm r c Hne). exact (Hold1 r c Hne).
Qed.

(** C5. From a reachable state, deliver fresh presses of one key and
    nothing else.  As long as its counter is below [INT16_MAX] each
    press adds exactly one to it (no wrap-around), [highest_] follows,
    and the other counters stay as they are.  The press that brings the
    counter to [INT16_MAX] halves every counter inside the same call:
    the counter and [highest_] are then 16383 and no counter is larger. *)
Theorem overflow_safety cfg s k row col ks x :
  reachable cfg s ->
  Z.land ks INJECTED = 0 -> keyToggledOn ks = true ->
  cell (heatmap_ s) row col = Some x ->
  (forall m, x + Z.of_nat m < INT16_MAX ->
     exists sm,
       press_n m s k row col ks = Some sm /\
       cell (heatmap_ sm) row col = Some (x + Z.of_nat m) /\
       highest_ sm = Z.max (highest_ s) (x + Z.of_nat m) /\
       (forall r c, (r, c) <> (row, col) ->
          cell (heatmap_ sm) r c = cell (heatmap_ s) r c)) /\
  (exists s1 g' sf,
     press_n (Z.to_nat (INT16_MAX - 1 - x)) s k row col ks = Some s1 /\
     cell (heatmap_ s1) row col = Some (INT16_MAX - 1) /\
     set_cell (heatmap_ s1) row col INT16_MAX = Some g' /\
     shiftStats {| heatmap_ := g';
                   highest_ := INT16_MAX;
                   next_heatmap_comp_time_ := next_heatmap_comp_time_ s1 |}
       = Some sf /\
     onKeyswitchEvent s1 k row col ks = Some (sf, OK) /\
     highest_ sf = 16383 /\
     cell (heatmap_ sf) row col = Some 16383 /\
     (forall r c y, cell (heatmap_ sf) r c = Some y -> 0 <= y <= 16383)).
Proof.
  intros Hs Hinj Hon Hx.
  pose proof (reachable_bounded cfg s Hs) as Hb.
  pose proof (proj1 (proj2 Hb) row col x Hx) as Hxle.
  pose proof (proj2 (proj2 Hb)) as Hmax.
  split.
  - intros m Hm.
    destruct (press_n_climb m s k row col ks x Hb Hinj Hon Hx Hm)
      as (sm & Hrun & _ & Hxm & Hhm & Hold).
    exists sm. auto.
  - destruct (press_n_climb (Z.to_nat (INT16_MAX - 1 - x)) s k row col ks x
                Hb Hinj Hon Hx) as (s1 & Hrun & Hb1 & Hx1 & Hh1 & _);
      [unfold INT16_MAX in *; lia|].
    replace (x + Z.of_nat (Z.to_nat (INT16_MAX - 1 - x))) with (INT16_MAX - 1)
      in Hx1, Hh1 by (unfold INT16_MAX in *; lia).
    pose proof Hb1 as (Hwf1 & Hle1 & Hmax1).
    destruct (onKeyswitchEvent_fresh s1 k row col ks _ Hwf1 Hinj Hon Hx1)
      as (g' & Hset & Hwf' & Hnew & Hold & Hres);
      [unfold INT16_MAX, UINT16_MOD; lia|].
    replace (INT16_MAX - 1 + 1) with INT16_MAX in * by (unfold INT16_MAX; lia).
    replace (highest_ s1 <? INT16_MAX) with true in Hres
      by (symmetry; apply Z.ltb_lt; exact Hmax1).
    rewrite Z.eqb_refl in Hres.
    exists s1, g'. eexists.
    split; [exact Hrun|]. split; [exact Hx1|]. split; [exact Hset|].
    split; [apply shiftStats_eq; exact Hwf'|].
    split; [exact Hres|]. simpl.
    split; [reflexivity|].
    split; [rewrite cell_halved, Hnew; reflexivity|].
    intros r c y Hy.
    change 16383 with (halve INT16_MAX).
    refine (cells_le_halved INT16_MAX g' _ r c y Hy).
    apply (cells_le_bump INT16_MAX (heatmap_ s1) g' row col INT16_MAX);
      try assumption; [|unfold INT16_MAX; lia].
    apply (cells_le_mono (highest_ s1)); [lia|exact Hle1].
Qed.

(** ** [beforeEachCycle] *)

(** The cycle hook for palettes of at most 127 stops, for which
    [heat_colors_length * 512] fits in 16 bits: the counters are halved
    exactly when [highest_] exceeds that product, whatever the render
    schedule says. *)
Lemma beforeEachCycle_small_palette cfg s :
  0 <= heat_colors_length cfg <= 127 ->
  wf_grid (heatmap_ s) ->
  (heat_colors_length cfg * 512 < highest_ s ->
     beforeEachCycle cfg s =
       Some ({| heatmap_ := halve_grid (heatmap_ s);
                highest_ := halve (highest_ s);
                next_heatmap_comp_time_ := next_heatmap_comp_time_ s |}, OK)) /\
  (highest_ s <= heat_colors_length cfg * 512 ->
     beforeEachCycle cfg s = Some (s, OK)).
Proof.
  intros Hlen Hwf. rewrite (beforeEachCycle_eq cfg s Hwf).
  rewrite (decay_threshold_small cfg Hlen). split; intros H.
  - apply Z.ltb_lt in H. rewrite H. reflexivity.
  - apply Z.ltb_ge in H. rewrite H. reflexivity.
Qed.

(** ** [update] *)

Lemma row_major_index r c :
  (c < COLS)%nat ->
  ((r * COLS + c) / COLS = r)%nat /\ ((r * COLS + c) mod COLS = c)%nat.
Proof.
  intros Hc. split; symmetry.
  - apply (Nat.div_unique _ _ _ c); [exact Hc|lia].
  - apply (Nat.mod_unique _ _ r); [exact Hc|lia].
Qed.

(** The inner loop of [update] paints row [r], left to right. *)
Lemma paint_row cfg s r leds :
  wf_grid (heatmap_ s) -> (r < ROWS)%nat ->
  painted cfg s (r * COLS) leds ->
  exists leds',
    for_loop 0 COLS (paint_cell cfg s r) leds = Some leds' /\
    painted cfg s (S r * COLS) leds'.
Proof.
  intros Hwf Hr Hstart.
  destruct (for_loop_inv (fun j t => painted cfg s (r * COLS + j) t)
              (paint_cell cfg s r) 0 COLS leds) as (leds' & Hloop & Hend).
  - rewrite Nat.add_0_r. exact Hstart.
  - intros j t Hj [Hlen Hpre].
    destruct (wf_grid_cell _ r j Hwf Hr) as [x Hx]; [lia|].
    eexists. split; [unfold paint_cell; rewrite Hx; reflexivity|].
    split.
    + rewrite length_app, Hlen. simpl. lia.
    + intros k Hk. destruct (decide (k < r * COLS + j)%nat) as [Hlt|Hge].
      * rewrite lookup_app_l by lia. apply Hpre. exact Hlt.
      * assert (k = (r * COLS + j)%nat) as -> by lia.
        rewrite lookup_app_r by lia. rewrite Hlen, Nat.sub_diag. simpl.
        unfold led_at.
        destruct (row_major_index r j) as [-> ->]; [lia|].
        rewrite Hx. reflexivity.
  - exists leds'. split; [exact Hloop|].
    replace (S r * COLS)%nat with (r * COLS + (0 + COLS))%nat by lia.
    exact Hend.
Qed.

(** The two nested loops of [update] paint the whole matrix. *)
Lemma paint_grid cfg s :
  wf_grid (heatmap_ s) ->
  exists leds,
    for_loop 0 ROWS (fun r => for_loop 0 COLS (paint_cell cfg s r)) [] = Some leds /\
    painted cfg s (ROWS * COLS) leds.
Proof.
  intros Hwf.
  destruct (for_loop_inv (fun j t => painted cfg s (j * COLS) t)
              (fun r => for_loop 0 COLS (paint_cell cfg s r)) 0 ROWS [])
    as (leds & Hloop & Hend).
  - split; [reflexivity|]. intros k Hk. simpl in Hk. lia.
  - intros j t Hj Hp. apply paint_row; [exact Hwf|lia|exact Hp].
  - exists leds. split; [exact Hloop|exact Hend].
Qed.

(** C8 (amended). [update] renders when nothing is scheduled
    ([next_heatmap_comp_time_ = 0]) or the clock has reached the
    scheduled time, and otherwise changes nothing and writes nothing.  A
    render pass stores the clock plus [update_delay], reduced modulo 2^32
    as a [uint32_t] is, which is the plain sum whenever that is below
    2^32; the counters are left alone.  It makes exactly [ROWS * COLS]
    calls to the LED surface, row by row, the one for key (r, c)
    carrying [computeColor] of the counter divided by [highest_] in
    binary32. *)
Theorem update_render cfg s millis_1 millis_2 :
  wf_grid (heatmap_ s) ->
  (next_heatmap_comp_time_ s <> 0 /\ millis_1 < next_heatmap_comp_time_ s ->
     update cfg s millis_1 millis_2 = Some (s, [])) /\
  (next_heatmap_comp_time_ s = 0 \/ next_heatmap_comp_time_ s <= millis_1 ->
     exists leds,
       update cfg s millis_1 millis_2 =
         Some ({| heatmap_ := heatmap_ s;
                  highest_ := highest_ s;
                  next_heatmap_comp_time_ :=
                    to_uint32 (millis_2 + update_delay cfg) |}, leds) /\
       length leds = (ROWS * COLS)%nat /\
       (forall r c, (r < ROWS)%nat -> (c < COLS)%nat ->
          exists x,
            cell (heatmap_ s) r c = Some x /\
            leds !! (r * COLS + c)%nat =
              Some (r, c, computeColor cfg
                            (F32.div (F32.of_int x) (F32.of_int (highest_ s)))))) /\
  to_uint32 (millis_2 + update_delay cfg)
    = (millis_2 + update_delay cfg) mod 4294967296 /\
  (0 <= millis_2 + update_delay cfg < 4294967296 ->
     to_uint32 (millis_2 + update_delay cfg) = millis_2 + update_delay cfg).
Proof.
  intros Hwf. split; [|split; [|split]].
  - intros [Hsched Hearly]. unfold update.
    apply Z.eqb_neq in Hsched. apply Z.ltb_lt in Hearly.
    rewrite Hsched, Hearly. reflexivity.
  - intros Hdue. unfold update.
    assert (Hcond : negb (next_heatmap_comp_time_ s =? 0)
                    && (millis_1 <? next_heatmap_comp_time_ s) = false).
    { destruct Hdue as [H0|Hle].
      - rewrite H0. reflexivity.
      - apply Z.ltb_ge in Hle. rewrite Hle. apply andb_false_r. }
    rewrite Hcond.
    set (s' := {| heatmap_ := heatmap_ s;
                  highest_ := highest_ s;
                  next_heatmap_comp_time_ := to_uint32 (millis_2 + update_delay cfg) |}).
    destruct (paint_grid cfg s' Hwf) as (leds & Hloop & Hlen & Hcalls).
    exists leds. rewrite Hloop. simpl.
    split; [reflexivity|]. split; [exact Hlen|].
    intros r c Hr Hc.
    destruct (wf_grid_cell _ r c Hwf Hr Hc) as [x Hx].
    exists x. split; [exact Hx|].
    rewrite Hcalls by nia. unfold led_at.
    destruct (row_major_index r c Hc) as [-> ->].
    simpl. rewrite Hx. reflexivity.
  - reflexivity.
  - intros Hfit. apply Z.mod_small. exact Hfit.
Qed.

(** ** Further properties *)

(** *** The colours of the hottest and of the untouched keys *)

Lemma check_block_sound k : forall lo P,
  check_block k lo P = true ->
  forall c, lo <= c < lo + 2 ^ Z.of_nat k -> P c = true.
Proof.
  clear ROWS COLS Key INJECTED keyToggledOn.
  induction k as [|k IH]; intros lo P H c Hc.
  - simpl in *. replace c with lo by lia. exact H.
  - simpl in H. apply andb_true_iff in H as [Hl Hr].
    rewrite Nat2Z.inj_succ, Z.pow_succ_r in Hc by lia.
    destruct (Z_lt_ge_dec c (lo + 2 ^ Z.of_nat k)) as [Hlow|Hhigh].
    + apply (IH lo P Hl). lia.
    + apply (IH _ P Hr). lia.
Qed.

(** A 16-bit count divided by itself is 1 in binary32. *)
Lemma div_self_ge_one h :
  1 <= h < 65536 ->
  F32.leb (F32.of_int 1) (F32.div (F32.of_int h) (F32.of_int h)) = true.
Proof.
  intros Hh.
  assert (Hall : check_block 16 0
            (fun h => (h =? 0)
                      || F32.leb (F32.of_int 1)
                           (F32.div (F32.of_int h) (F32.of_int h))) = true)
    by (vm_compute; reflexivity).
  pose proof (check_block_sound 16 0 _ Hall h ltac:(simpl; lia)) as Hh'.
  simpl in Hh'.
  apply orb_true_iff in Hh' as [H0|H1]; [apply Z.eqb_eq in H0; lia|exact H1].
Qed.

(** Zero divided by a nonzero 16-bit count is 0 in binary32. *)
Lemma div_zero_le_zero h :
  1 <= h < 65536 ->
  F32.leb (F32.div (F32.of_int 0) (F32.of_int h)) (F32.of_int 0) = true.
Proof.
  intros Hh.
  assert (Hall : check_block 16 0
            (fun h => (h =? 0)
                      || F32.leb (F32.div (F32.of_int 0) (F32.of_int h))
                           (F32.of_int 0)) = true)
    by (vm_compute; reflexivity).
  pose proof (check_block_sound 16 0 _ Hall h ltac:(simpl; lia)) as Hh'.
  simpl in Hh'.
  apply orb_true_iff in Hh' as [H0|H1]; [apply Z.eqb_eq in H0; lia|exact H1].
Qed.

Lemma computeColor_le_zero cfg v :
  cRGB.wf (heat_colors cfg 0%nat) ->
  F32.leb v (F32.of_int 0) = true ->
  computeColor cfg v = heat_colors cfg 0%nat.
Proof.
  intros Hfirst Hv. apply (computeColor_same_stop cfg v 0); [|exact Hfirst].
  unfold computeColor_indices. rewrite Hv. reflexivity.
Qed.

Lemma computeColor_ge_one cfg v :
  1 <= heat_colors_length cfg <= 255 ->
  cRGB.wf (heat_colors cfg (Z.to_nat (heat_colors_length cfg - 1))) ->
  F32.leb (F32.of_int 1) v = true ->
  computeColor cfg v = heat_colors cfg (Z.to_nat (heat_colors_length cfg - 1)).
Proof.
  intros Hlen Hlast Hv.
  assert (Hidx : to_uint8 (heat_colors_length cfg - 1) = heat_colors_length cfg - 1).
  { unfold to_uint8, UINT8_MOD. apply Z.mod_small. lia. }
  rewrite <- Hidx in Hlast |- * at 1.
  apply computeColor_same_stop; [|rewrite Hidx in *; exact Hlast].
  unfold computeColor_indices.
  rewrite (ge_one_not_le_zero v Hv), Hv. reflexivity.
Qed.

(** A render pass that is due: the new schedule and the calls made. *)
Lemma update_due cfg s millis_1 millis_2 :
  wf_grid (heatmap_ s) ->
  next_heatmap_comp_time_ s = 0 \/ next_heatmap_comp_time_ s <= millis_1 ->
  exists leds,
    update cfg s millis_1 millis_2 =
      Some ({| heatmap_ := heatmap_ s;
               highest_ := highest_ s;
               next_heatmap_comp_time_ := to_uint32 (millis_2 + update_delay cfg) |},
            leds) /\
    length leds = (ROWS * COLS)%nat /\
    (forall r c x, (c < COLS)%nat -> cell (heatmap_ s) r c = Some x ->
       leds !! (r * COLS + c)%nat = Some (r, c, computeColor cfg (heat_of s x))).
Proof.
  intros Hwf Hdue. unfold update.
  assert (Hcond : negb (next_heatmap_comp_time_ s =? 0)
                  && (millis_1 <? next_heatmap_comp_time_ s) = false).
  { destruct Hdue as [H0|Hle].
    - rewrite H0. reflexivity.
    - apply Z.ltb_ge in Hle. rewrite Hle. apply andb_false_r. }
  rewrite Hcond.
  set (s' := {| heatmap_ := heatmap_ s;
                highest_ := highest_ s;
                next_heatmap_comp_time_ := to_uint32 (millis_2 + update_delay cfg) |}).
  destruct (paint_grid cfg s' Hwf) as (leds & Hloop & Hlen & Hcalls).
  exists leds. rewrite Hloop. simpl.
  split; [reflexivity|]. split; [exact Hlen|].
  intros r c x Hc Hx.
  destruct (cell_in_range _ _ _ _ Hwf Hx) as [Hr _].
  rewrite Hcalls by nia. unfold led_at.
  destruct (row_major_index r c Hc) as [-> ->].
  simpl. rewrite Hx. reflexivity.
Qed.

(** X1. In a state a run can reach (palette of 1 to 127 stops whose first
    and last stops are made of bytes), a render pass that is due sends
    the last palette stop to every key whose counter equals [highest_] and
    the first palette stop to every key whose counter is 0. *)
Theorem render_extremes cfg s millis_1 millis_2 :
  1 <= heat_colors_length cfg <= 127 ->
  cRGB.wf (heat_colors cfg 0%nat) ->
  cRGB.wf (heat_colors cfg (Z.to_nat (heat_colors_length cfg - 1))) ->
  reachable cfg s ->
  next_heatmap_comp_time_ s = 0 \/ next_heatmap_comp_time_ s <= millis_1 ->
  exists s' leds,
    update cfg s millis_1 millis_2 = Some (s', leds) /\
    forall r c,
      (cell (heatmap_ s) r c = Some (highest_ s) ->
         leds !! (r * COLS + c)%nat =
           Some (r, c, heat_colors cfg (Z.to_nat (heat_colors_length cfg - 1)))) /\
      (cell (heatmap_ s) r c = Some 0 ->
         leds !! (r * COLS + c)%nat = Some (r, c, heat_colors cfg 0%nat)).
Proof.
  intros Hlen Hfirst Hlast Hs Hdue.
  destruct (reachable_bounded cfg s Hs) as (Hwf & Hle & Hmax).
  assert (Hpos : 1 <= highest_ s).
  { apply (reachable_highest_pos cfg); [|exact Hs].
    rewrite decay_threshold_small by lia. lia. }
  destruct (update_due cfg s millis_1 millis_2 Hwf Hdue) as (leds & Hrun & _ & Hcalls).
  eexists. exists leds. split; [exact Hrun|].
  unfold INT16_MAX in Hmax.
  intros r c. split; intros Hx.
  - destruct (cell_in_range _ _ _ _ Hwf Hx) as [_ Hc].
    rewrite (Hcalls r c _ Hc Hx). do 2 f_equal.
    apply computeColor_ge_one; [lia|exact Hlast|].
    unfold heat_of. apply div_self_ge_one. lia.
  - destruct (cell_in_range _ _ _ _ Hwf Hx) as [_ Hc].
    rewrite (Hcalls r c _ Hc Hx). do 2 f_equal.
    apply computeColor_le_zero; [exact Hfirst|].
    unfold heat_of. apply div_zero_le_zero. lia.
Qed.

(** *** [highest_] is the running maximum *)

Lemma attained_key s k row col ks s' res :
  counters_bounded s -> highest_attained s ->
  onKeyswitchEvent s k row col ks = Some (s', res) ->
  highest_attained s'.
Proof.
  intros (Hwf & Hle & Hmax) Hatt Hev.
  destruct (decide (Z.land ks INJECTED = 0)) as [Hinj|Hinj].
  2:{ rewrite onKeyswitchEvent_injected in Hev by exact Hinj.
      injection Hev as <- <-. exact Hatt. }
  destruct (keyToggledOn ks) eqn:Hon.
  2:{ rewrite onKeyswitchEvent_not_toggled in Hev by exact Hon.
      injection Hev as <- <-. exact Hatt. }
  destruct (cell (heatmap_ s) row col) as [x|] eqn:Hx.
  2:{ unfold onKeyswitchEvent in Hev. rewrite Hinj, Hon, Hx in Hev. discriminate. }
  pose proof (Hle row col x Hx) as Hxle.
  destruct (onKeyswitchEvent_fresh s k row col ks x Hwf Hinj Hon Hx)
    as (g' & _ & Hwf' & Hnew & Hold & Hres);
    [unfold INT16_MAX, UINT16_MOD in *; lia|].
  rewrite Hres in Hev. clear Hres.
  destruct (highest_ s <? x + 1) eqn:Hlt.
  - destruct (x + 1 =? INT16_MAX); injection Hev as <- <-; right;
      exists row, col; simpl.
    + rewrite cell_halved, Hnew. reflexivity.
    + exact Hnew.
  - apply Z.ltb_ge in Hlt. injection Hev as <- <-.
    destruct Hatt as [H1|(r & c & Hrc)]; [left; exact H1|].
    right. exists r, c. simpl.
    rewrite Hold; [exact Hrc|].
    intros Heq. injection Heq as -> ->. rewrite Hx in Hrc.
    injection Hrc as Hrc. lia.
Qed.

Lemma attained_cycle cfg s s' res :
  0 < decay_threshold cfg ->
  wf_grid (heatmap_ s) -> highest_attained s ->
  beforeEachCycle cfg s = Some (s', res) ->
  highest_attained s'.
Proof.
  intros Hthr Hwf Hatt Hev. rewrite beforeEachCycle_eq in Hev by exact Hwf.
  destruct (decay_threshold cfg <? highest_ s) eqn:Hlt;
    injection Hev as <- <-; [|exact Hatt].
  apply Z.ltb_lt in Hlt.
  destruct Hatt as [H1|(r & c & Hrc)]; [lia|].
  right. exists r, c. simpl. rewrite cell_halved, Hrc. reflexivity.
Qed.

Lemma reachable_attained cfg s :
  0 < decay_threshold cfg -> reachable cfg s -> highest_attained s.
Proof.
  intros Hthr.
  induction 1 as [|s k row col ks s' res Hs IH Hev
                  |s s' res Hs IH Hev
                  |s t1 t2 s' leds Hs IH Hev].
  - left. reflexivity.
  - exact (attained_key _ _ _ _ _ _ _ (reachable_bounded _ _ Hs) IH Hev).
  - exact (attained_cycle _ _ _ _ Hthr
             (proj1 (reachable_bounded _ _ Hs)) IH Hev).
  - destruct (update_counters _ _ _ _ _ _ Hev) as [Hg Hh].
    unfold highest_attained. rewrite Hg, Hh. exact IH.
Qed.

(** X2. [highest_] is the running maximum and not just an upper bound:
    in every state a run can reach (palette of 1 to 127 stops),
    [highest_] is either its initial value 1 or the value of some counter
    of the matrix. *)
Theorem highest_is_running_maximum cfg s :
  1 <= heat_colors_length cfg <= 127 ->
  reachable cfg s ->
  highest_ s = 1 \/
  exists r c, (r < ROWS)%nat /\ (c < COLS)%nat /\
              cell (heatmap_ s) r c = Some (highest_ s).
Proof.
  intros Hlen Hs.
  assert (Hthr : 0 < decay_threshold cfg)
    by (rewrite decay_threshold_small by lia; lia).
  destruct (reachable_attained cfg s Hthr Hs) as [H1|(r & c & Hrc)];
    [left; exact H1|].
  right. exists r, c.
  destruct (cell_in_range _ _ _ _ (proj1 (reachable_bounded cfg s Hs)) Hrc).
  auto.
Qed.

(** *** Counting presses *)

Lemma shiftStats_schedule s s' :
  shiftStats s = Some s' ->
  next_heatmap_comp_time_ s' = next_heatmap_comp_time_ s.
Proof.
  unfold shiftStats. intros H.
  destruct (for_loop _ _ _ _); simpl in H; [|discriminate].
  injection H as <-. reflexivity.
Qed.

Lemma onKeyswitchEvent_schedule s k row col ks s' res :
  onKeyswitchEvent s k row col ks = Some (s', res) ->
  next_heatmap_comp_time_ s' = next_heatmap_comp_time_ s.
Proof.
  unfold onKeyswitchEvent. intros H.
  destruct (negb (Z.land ks INJECTED =? 0)); [injection H as <- _; reflexivity|].
  destruct (negb (keyToggledOn ks)); [injection H as <- _; reflexivity|].
  destruct (cell (heatmap_ s) row col); simpl in H; [|discriminate].
  destruct (set_cell _ _ _ _); simpl in H; [|discriminate].
  destruct (_ <? _); simpl in H.
  - destruct (_ =? _); simpl in H.
    + destruct (shiftStats _) as [s2|] eqn:Hshift; simpl in H; [|discriminate].
      injection H as <- _. apply shiftStats_schedule in Hshift. exact Hshift.
    + injection H as <- _. reflexivity.
  - injection H as <- _. reflexivity.
Qed.

(** One event for a key of the matrix, far enough below [INT16_MAX]. *)
Lemma event_counted s e :
  counters_bounded s ->
  (ev_row e < ROWS)%nat -> (ev_col e < COLS)%nat ->
  highest_ s + 1 < INT16_MAX ->
  exists s1,
    onKeyswitchEvent s (ev_key e) (ev_row e) (ev_col e) (ev_state e)
      = Some (s1, OK) /\
    counters_bounded s1 /\
    (forall r c x, cell (heatmap_ s) r c = Some x ->
       cell (heatmap_ s1) r c = Some (x + if hits r c e then 1 else 0)) /\
    highest_ s <= highest_ s1 <= highest_ s + 1.
Proof.
  intros Hb Hr Hc Hroom. pose proof Hb as (Hwf & Hle & Hmax).
  unfold hits, is_fresh.
  destruct (decide (Z.land (ev_state e) INJECTED = 0)) as [Hinj|Hinj].
  2:{ exists s. rewrite onKeyswitchEvent_injected by exact Hinj.
      apply Z.eqb_neq in Hinj. rewrite Hinj. simpl.
      split; [reflexivity|]. split; [exact Hb|].
      split; [|lia]. intros r c x Hx. rewrite Z.add_0_r. exact Hx. }
  destruct (keyToggledOn (ev_state e)) eqn:Hon.
  2:{ exists s. rewrite onKeyswitchEvent_not_toggled by exact Hon.
      rewrite andb_false_r. simpl.
      split; [reflexivity|]. split; [exact Hb|].
      split; [|lia]. intros r c x Hx. rewrite Z.add_0_r. exact Hx. }
  destruct (wf_grid_cell _ _ _ Hwf Hr Hc) as [x0 Hx0].
  pose proof (Hle _ _ _ Hx0) as Hx0le.
  destruct (press_below_threshold s (ev_key e) _ _ _ x0 Hb Hinj Hon Hx0)
    as (s1 & Hstep & Hb1 & Hnew & Hh1 & Hold); [lia|].
  exists s1. split; [exact Hstep|]. split; [exact Hb1|]. split; [|lia].
  intros r c x Hx. rewrite Hinj. simpl.
  destruct (decide ((r, c) = (ev_row e, ev_col e))) as [Heq|Hne].
  - injection Heq as -> ->. rewrite !Nat.eqb_refl. simpl.
    rewrite Hx0 in Hx. injection Hx as <-. exact Hnew.
  - rewrite (Hold r c Hne), Hx.
    destruct (Nat.eqb_spec (ev_row e) r) as [<-|]; simpl.
    + destruct (Nat.eqb_spec (ev_col e) c) as [<-|]; [congruence|].
      rewrite Z.add_0_r. reflexivity.
    + rewrite Z.add_0_r. reflexivity.
Qed.

Lemma run_events_counted evs : forall s,
  counters_bounded s -> on_matrix evs ->
  highest_ s + Z.of_nat (length evs) < INT16_MAX ->
  exists s',
    run_events evs s = Some s' /\
    counters_bounded s' /\
    (forall r c x, cell (heatmap_ s) r c = Some x ->
       cell (heatmap_ s') r c = Some (x + presses_at r c evs)) /\
    highest_ s <= highest_ s' <= highest_ s + Z.of_nat (length evs) /\
    next_heatmap_comp_time_ s' = next_heatmap_comp_time_ s.
Proof.
  induction evs as [|e evs IH]; intros s Hb Hin Hroom.
  - exists s. simpl. split; [reflexivity|]. split; [exact Hb|].
    split; [|split; [lia|reflexivity]].
    intros r c x Hx. rewrite Z.add_0_r. exact Hx.
  - apply Forall_cons in Hin as [[Hr Hc] Hin]. simpl length in Hroom.
    destruct (event_counted s e Hb Hr Hc) as (s1 & Hstep & Hb1 & Hcells1 & Hh1);
      [lia|].
    destruct (IH s1 Hb1 Hin) as (s' & Hrun & Hb' & Hcells' & Hh' & Hn'); [lia|].
    exists s'. simpl. rewrite Hstep. simpl.
    split; [exact Hrun|]. split; [exact Hb'|]. split; [|split; [lia|]].
    + intros r c x Hx. rewrite (Hcells' r c _ (Hcells1 r c x Hx)).
      f_equal. lia.
    + rewrite Hn'. exact (onKeyswitchEvent_schedule _ _ _ _ _ _ _ Hstep).
Qed.

Lemma run_events_reachable cfg evs : forall s s',
  reachable cfg s -> run_events evs s = Some s' -> reachable cfg s'.
Proof.
  induction evs as [|e evs IH]; intros s s' Hs Hrun; simpl in Hrun.
  - injection Hrun as <-. exact Hs.
  - destruct (onKeyswitchEvent s _ _ _ _) as [[s1 res]|] eqn:Hstep;
      simpl in Hrun; [|discriminate].
    apply (IH s1 s'); [|exact Hrun].
    exact (reach_key cfg _ _ _ _ _ _ _ Hs Hstep).
Qed.

(** X3. The counters count fresh presses.  From a reachable state, a
    stream of key events for keys of the matrix that is short enough not
    to bring [highest_] to [INT16_MAX] is processed to the end, and
    afterwards every counter has grown by exactly the number of events of
    the stream that are fresh presses of its key (events with the
    [INJECTED] bit, releases and repeats count for nothing).  [highest_]
    does not decrease, and grows by at most the length of the stream. *)
Theorem presses_are_counted cfg evs s :
  reachable cfg s ->
  on_matrix evs ->
  highest_ s + Z.of_nat (length evs) < INT16_MAX ->
  exists s',
    run_events evs s = Some s' /\
    (forall r c x, cell (heatmap_ s) r c = Some x ->
       cell (heatmap_ s') r c = Some (x + presses_at r c evs)) /\
    highest_ s <= highest_ s' <= highest_ s + Z.of_nat (length evs).
Proof.
  intros Hs Hin Hroom.
  destruct (run_events_counted evs s (reachable_bounded cfg s Hs) Hin Hroom)
    as (s' & Hrun & _ & Hcells & Hh & _).
  exists s'. auto.
Qed.

Lemma presses_elsewhere r0 c0 r c evs :
  Forall (fun e => is_fresh (ev_state e) = true ->
                   ev_row e = r0 /\ ev_col e = c0) evs ->
  (r, c) <> (r0, c0) ->
  presses_at r c evs = 0.
Proof.
  intros Hall Hne. induction Hall as [|e evs He _ IH]; [reflexivity|].
  simpl. rewrite IH, Z.add_0_r. unfold hits.
  destruct (is_fresh (ev_state e)) eqn:Hf; [|reflexivity].
  destruct (He eq_refl) as [-> ->]. simpl.
  destruct (Nat.eqb_spec r0 r) as [<-|]; [|reflexivity].
  destruct (Nat.eqb_spec c0 c) as [<-|]; [congruence|reflexivity].
Qed.

Lemma cell_init r c :
  (r < ROWS)%nat -> (c < COLS)%nat -> cell (heatmap_ init_state) r c = Some 0.
Proof.
  intros Hr Hc. unfold cell. simpl.
  rewrite lookup_replicate_2 by exact Hr. simpl.
  apply lookup_replicate_2. exact Hc.
Qed.

Lemma run_events_attained evs : forall s s',
  counters_bounded s -> highest_attained s ->
  run_events evs s = Some s' ->
  highest_attained s'.
Proof.
  induction evs as [|e evs IH]; intros s s' Hb Hatt Hrun; simpl in Hrun.
  - injection Hrun as <-. exact Hatt.
  - destruct (onKeyswitchEvent s _ _ _ _) as [[s1 res]|] eqn:Hstep;
      simpl in Hrun; [|discriminate].
    apply (IH s1 s'); [| |exact Hrun].
    + exact (proj1 (counters_bounded_key _ _ _ _ _ _ _ Hb Hstep)).
    + exact (attained_key _ _ _ _ _ _ _ Hb Hatt Hstep).
Qed.

(** X4. From start-up to the LEDs, for every palette of 1 to 255 stops
    whose first and last stops are made of bytes.  Take any stream of key
    events for keys of the matrix, shorter than [INT16_MAX - 1], in which
    every fresh press is a press of one key (r0, c0), pressed at least
    once; injected events, releases and repeats may occur on any key.
    After the stream [highest_] is the number of presses, and the next
    render pass sends the last palette stop to key (r0, c0) and the
    first palette stop to every other key. *)
Theorem single_key_heat cfg evs r0 c0 millis_1 millis_2 :
  1 <= heat_colors_length cfg <= 255 ->
  cRGB.wf (heat_colors cfg 0%nat) ->
  cRGB.wf (heat_colors cfg (Z.to_nat (heat_colors_length cfg - 1))) ->
  on_matrix evs ->
  (r0 < ROWS)%nat -> (c0 < COLS)%nat ->
  Forall (fun e => is_fresh (ev_state e) = true ->
                   ev_row e = r0 /\ ev_col e = c0) evs ->
  1 <= presses_at r0 c0 evs ->
  Z.of_nat (length evs) < INT16_MAX - 1 ->
  exists s s' leds,
    run_events evs init_state = Some s /\
    highest_ s = presses_at r0 c0 evs /\
    update cfg s millis_1 millis_2 = Some (s', leds) /\
    leds !! (r0 * COLS + c0)%nat =
      Some (r0, c0, heat_colors cfg (Z.to_nat (heat_colors_length cfg - 1))) /\
    (forall r c, (r < ROWS)%nat -> (c < COLS)%nat -> (r, c) <> (r0, c0) ->
       leds !! (r * COLS + c)%nat = Some (r, c, heat_colors cfg 0%nat)).
Proof.
  intros Hlen Hfirst Hlast Hin Hr0 Hc0 Hone Hn Hshort.
  destruct (run_events_counted evs init_state counters_bounded_init Hin)
    as (s & Hrun & Hb & Hcells & Hh & Hnext); [simpl; lia|].
  simpl in Hh, Hnext.
  assert (Hatt : highest_attained s).
  { apply (run_events_attained evs init_state s counters_bounded_init);
      [left; reflexivity|exact Hrun]. }
  pose proof Hb as (Hwf & Hle & Hmax).
  assert (Hhot : cell (heatmap_ s) r0 c0 = Some (presses_at r0 c0 evs)).
  { rewrite (Hcells r0 c0 0 (cell_init r0 c0 Hr0 Hc0)). reflexivity. }
  assert (Hcold : forall r c, (r < ROWS)%nat -> (c < COLS)%nat ->
                    (r, c) <> (r0, c0) -> cell (heatmap_ s) r c = Some 0).
  { intros r c Hr Hc Hne. rewrite (Hcells r c 0 (cell_init r c Hr Hc)).
    rewrite (presses_elsewhere r0 c0 r c evs Hone Hne). reflexivity. }
  assert (Hmaxis : highest_ s = presses_at r0 c0 evs).
  { pose proof (Hle _ _ _ Hhot) as Hbound.
    destruct Hatt as [H1|(r & c & Hrc)]; [lia|].
    destruct (cell_in_range _ _ _ _ Hwf Hrc) as [Hr Hc].
    destruct (decide ((r, c) = (r0, c0))) as [Heq|Hne].
    - injection Heq as -> ->. congruence.
    - rewrite (Hcold r c Hr Hc Hne) in Hrc. injection Hrc as Hrc. lia. }
  destruct (update_due cfg s millis_1 millis_2 Hwf) as (leds & Hup & _ & Hcalls);
    [left; exact Hnext|].
  exists s. eexists. exists leds.
  split; [exact Hrun|]. split; [exact Hmaxis|]. split; [exact Hup|].
  unfold INT16_MAX in *. split.
  - rewrite (Hcalls r0 c0 _ Hc0 Hhot). do 2 f_equal.
    apply computeColor_ge_one; [lia|exact Hlast|].
    unfold heat_of. rewrite Hmaxis. apply div_self_ge_one. lia.
  - intros r c Hr Hc Hne.
    rewrite (Hcalls r c _ Hc (Hcold r c Hr Hc Hne)). do 2 f_equal.
    apply computeColor_le_zero; [exact Hfirst|].
    unfold heat_of. apply div_zero_le_zero. lia.
Qed.

(** *** The two decay triggers *)

(** X5. With a palette of 64 to 127 stops the threshold of the cycle hook,
    [heat_colors_length << 9], is at least 32768, which [highest_] never
    reaches: in every reachable state [beforeEachCycle] returns the state
    as it is, and only the [INT16_MAX] test of [onKeyswitchEvent] ever
    halves the counters. *)
Theorem cycle_hook_idle_for_long_palettes cfg s :
  64 <= heat_colors_length cfg <= 127 ->
  reachable cfg s ->
  beforeEachCycle cfg s = Some (s, OK).
Proof.
  intros Hlen Hs. destruct (reachable_bounded cfg s Hs) as (Hwf & _ & Hmax).
  rewrite (beforeEachCycle_eq cfg s Hwf).
  rewrite decay_threshold_small by lia.
  replace (heat_colors_length cfg * 512 <? highest_ s) with false; [reflexivity|].
  symmetry. apply Z.ltb_ge. unfold INT16_MAX in Hmax. lia.
Qed.

(** X6. With a palette of 1 to 63 stops, when the cycle hook runs after
    every key event, [highest_] is at most [heat_colors_length * 512] at
    the end of each cycle.  The key event raises [highest_] by at most one
    and never brings it to [INT16_MAX], so its own halving is not
    triggered: a fresh press leaves its counter one higher. *)
Theorem hook_after_each_event cfg s k row col ks x :
  1 <= heat_colors_length cfg <= 63 ->
  counters_bounded s ->
  highest_ s <= heat_colors_length cfg * 512 ->
  cell (heatmap_ s) row col = Some x ->
  exists s1 s2,
    onKeyswitchEvent s k row col ks = Some (s1, OK) /\
    cell (heatmap_ s1) row col = Some (x + if is_fresh ks then 1 else 0) /\
    highest_ s <= highest_ s1 <= highest_ s + 1 /\
    beforeEachCycle cfg s1 = Some (s2, OK) /\
    counters_bounded s2 /\
    highest_ s2 <= heat_colors_length cfg * 512.
Proof.
  intros Hlen Hb Hlow Hx. pose proof Hb as (Hwf & _ & _).
  destruct (cell_in_range _ _ _ _ Hwf Hx) as [Hr Hc].
  destruct (event_counted s (mkKeyEvent k row col ks) Hb Hr Hc)
    as (s1 & Hstep & Hb1 & Hcells & Hh1); [unfold INT16_MAX; simpl; lia|].
  simpl in Hstep. pose proof (Hcells row col x Hx) as Hnew.
  unfold hits in Hnew. simpl in Hnew. rewrite !Nat.eqb_refl, !andb_true_r in Hnew.
  pose proof Hb1 as (Hwf1 & _ & _).
  destruct (beforeEachCycle cfg s1) as [[s2 res]|] eqn:Hhook.
  2:{ rewrite beforeEachCycle_eq in Hhook by exact Hwf1.
      destruct (_ <? _); discriminate. }
  pose proof (proj1 (counters_bounded_cycle cfg s1 s2 res Hb1 Hhook)) as Hb2.
  pose proof Hhook as Hhook0.
  rewrite beforeEachCycle_eq in Hhook by exact Hwf1.
  rewrite decay_threshold_small in Hhook by lia.
  exists s1, s2. split; [exact Hstep|]. split; [exact Hnew|]. split; [exact Hh1|].
  destruct (heat_colors_length cfg * 512 <? highest_ s1) eqn:Hcmp;
    injection Hhook as <- <-.
  - split; [exact Hhook0|]. split; [exact Hb2|]. halving.
  - apply Z.ltb_ge in Hcmp. split; [exact Hhook0|]. split; [exact Hb2|]. exact Hcmp.
Qed.

(** *** More on [shiftStats] *)

Lemma iter_shiftStats_eq n : forall s,
  wf_grid (heatmap_ s) ->
  exists s',
    iter_shiftStats n s = Some s' /\
    wf_grid (heatmap_ s') /\
    highest_ s' = highest_ s / 2 ^ Z.of_nat n /\
    (forall r c,
       cell (heatmap_ s') r c
         = (fun x => x / 2 ^ Z.of_nat n) <$> cell (heatmap_ s) r c).
Proof.
  induction n as [|n IH]; intros s Hwf.
  - exists s. simpl. split; [reflexivity|]. split; [exact Hwf|].
    split; [rewrite Z.div_1_r; reflexivity|].
    intros r c. destruct (cell (heatmap_ s) r c); simpl; [|reflexivity].
    rewrite Z.div_1_r. reflexivity.
  - destruct (IH {| heatmap_ := halve_grid (heatmap_ s);
                     highest_ := halve (highest_ s);
                     next_heatmap_comp_time_ := next_heatmap_comp_time_ s |}
                (wf_grid_halved _ Hwf)) as (s' & Hrun & Hwf' & Hh & Hcells).
    exists s'. simpl iter_shiftStats. rewrite (shiftStats_eq s Hwf). simpl.
    split; [exact Hrun|]. split; [exact Hwf'|].
    assert (Hpow : forall x, halve x / 2 ^ Z.of_nat n = x / 2 ^ Z.of_nat (S n)).
    { intros x. rewrite halve_div, Nat2Z.inj_succ, Z.pow_succ_r by lia.
      apply Z.div_div; lia. }
    simpl in Hh, Hcells. split.
    + rewrite Hh. apply Hpow.
    + intros r c. rewrite Hcells, cell_halved.
      destruct (cell (heatmap_ s) r c); simpl; [|reflexivity].
      rewrite Hpow. reflexivity.
Qed.

(** X7. [n] calls of [shiftStats] in a row divide [highest_] and every
    counter by [2^n], rounding down; from 16 calls on, [highest_] and
    every counter that held a 16-bit value are 0. *)
Theorem shiftStats_iterated n s :
  wf_grid (heatmap_ s) ->
  exists s',
    iter_shiftStats n s = Some s' /\
    highest_ s' = highest_ s / 2 ^ Z.of_nat n /\
    (forall r c,
       cell (heatmap_ s') r c
         = (fun x => x / 2 ^ Z.of_nat n) <$> cell (heatmap_ s) r c) /\
    ((16 <= n)%nat ->
       (0 <= highest_ s < 65536 -> highest_ s' = 0) /\
       (forall r c x, cell (heatmap_ s) r c = Some x -> 0 <= x < 65536 ->
          cell (heatmap_ s') r c = Some 0)).
Proof.
  intros Hwf.
  destruct (iter_shiftStats_eq n s Hwf) as (s' & Hrun & _ & Hh & Hcells).
  exists s'. split; [exact Hrun|]. split; [exact Hh|]. split; [exact Hcells|].
  intros Hn.
  assert (Hbig : 65536 <= 2 ^ Z.of_nat n).
  { change 65536 with (2 ^ 16). apply Z.pow_le_mono_r; lia. }
  split.
  - intros Hrange. rewrite Hh. apply Z.div_small. lia.
  - intros r c x Hx Hrange. rewrite Hcells, Hx. simpl. f_equal.
    apply Z.div_small. lia.
Qed.

(** X8. Halving keeps the ranking of the keys: of two counters the
    smaller stays the smaller (they may become equal), and a counter that
    was at most [highest_] still is. *)
Theorem shiftStats_keeps_order s :
  wf_grid (heatmap_ s) ->
  exists s',
    shiftStats s = Some s' /\
    (forall r1 c1 r2 c2 x y,
       cell (heatmap_ s) r1 c1 = Some x -> cell (heatmap_ s) r2 c2 = Some y ->
       x <= y ->
       exists x' y',
         cell (heatmap_ s') r1 c1 = Some x' /\
         cell (heatmap_ s') r2 c2 = Some y' /\ x' <= y') /\
    (forall r c x,
       cell (heatmap_ s) r c = Some x -> x <= highest_ s ->
       exists x', cell (heatmap_ s') r c = Some x' /\ x' <= highest_ s').
Proof.
  intros Hwf. eexists. split; [apply shiftStats_eq; exact Hwf|]. simpl.
  assert (Hmono : forall a b, a <= b -> halve a <= halve b).
  { intros a b Hab. rewrite !halve_div. apply Z.div_le_mono; lia. }
  split.
  - intros r1 c1 r2 c2 x y Hx Hy Hxy. exists (halve x), (halve y).
    rewrite !cell_halved, Hx, Hy. auto.
  - intros r c x Hx Hxh. exists (halve x). rewrite cell_halved, Hx. auto.
Qed.

(** *** The render schedule *)

(** X9. Rate limit.  After a render pass whose new schedule
    [millis_2 + update_delay] is positive and fits in 32 bits, every call
    of [update] made while the clock is below that time returns the state
    as it is and writes nothing. *)
Theorem update_rate_limit cfg s millis_1 millis_2 :
  wf_grid (heatmap_ s) ->
  next_heatmap_comp_time_ s = 0 \/ next_heatmap_comp_time_ s <= millis_1 ->
  0 < millis_2 + update_delay cfg < 4294967296 ->
  exists s' leds,
    update cfg s millis_1 millis_2 = Some (s', leds) /\
    next_heatmap_comp_time_ s' = millis_2 + update_delay cfg /\
    forall t1 t2, t1 < millis_2 + update_delay cfg ->
      update cfg s' t1 t2 = Some (s', []).
Proof.
  intros Hwf Hdue Hfit.
  destruct (update_due cfg s millis_1 millis_2 Hwf Hdue) as (leds & Hrun & _).
  assert (Hsum : to_uint32 (millis_2 + update_delay cfg) = millis_2 + update_delay cfg).
  { unfold to_uint32, UINT32_MOD. apply Z.mod_small. lia. }
  rewrite Hsum in Hrun.
  eexists. exists leds. split; [exact Hrun|]. split; [reflexivity|].
  intros t1 t2 Ht. unfold update. simpl.
  replace (millis_2 + update_delay cfg =? 0) with false
    by (symmetry; apply Z.eqb_neq; lia).
  replace (t1 <? millis_2 + update_delay cfg) with true
    by (symmetry; apply Z.ltb_lt; exact Ht).
  reflexivity.
Qed.

(** X10. When the 32-bit sum [millis_2 + update_delay] wraps around, the
    stored time is the sum minus 2^32, which lies behind the clock: every
    later call of [update] whose clock value is still at least [millis_2]
    renders again, whatever [update_delay] is. *)
Theorem update_after_clock_wrap cfg s millis_1 millis_2 :
  wf_grid (heatmap_ s) ->
  next_heatmap_comp_time_ s = 0 \/ next_heatmap_comp_time_ s <= millis_1 ->
  0 <= millis_2 < 4294967296 ->
  0 <= update_delay cfg < 65536 ->
  4294967296 <= millis_2 + update_delay cfg ->
  exists s' leds,
    update cfg s millis_1 millis_2 = Some (s', leds) /\
    next_heatmap_comp_time_ s' = millis_2 + update_delay cfg - 4294967296 /\
    forall t1 t2, millis_2 <= t1 ->
      exists s'' leds',
        update cfg s' t1 t2 = Some (s'', leds') /\
        length leds' = (ROWS * COLS)%nat.
Proof.
  intros Hwf Hdue Hclock Hdelay Hwrap.
  destruct (update_due cfg s millis_1 millis_2 Hwf Hdue) as (leds & Hrun & _).
  assert (Hsum : to_uint32 (millis_2 + update_delay cfg)
                 = millis_2 + update_delay cfg - 4294967296).
  { unfold to_uint32, UINT32_MOD. symmetry.
    apply (Z.mod_unique _ _ 1); lia. }
  rewrite Hsum in Hrun.
  eexists. exists leds. split; [exact Hrun|]. split; [reflexivity|].
  intros t1 t2 Ht.
  match type of Hrun with _ = Some (?st, _) =>
    destruct (update_due cfg st t1 t2 Hwf) as (leds' & Hrun' & Hlen' & _);
      [right; simpl; lia|]
  end.
  eexists. exists leds'. split; [exact Hrun'|exact Hlen'].
Qed.

Lemma beforeEachCycle_schedule cfg s s' res :
  beforeEachCycle cfg s = Some (s', res) ->
  next_heatmap_comp_time_ s' = next_heatmap_comp_time_ s.
Proof.
  unfold beforeEachCycle. intros H.
  destruct (_ <? _); simpl in H.
  - destruct (shiftStats s) as [s2|] eqn:Hshift; simpl in H; [|discriminate].
    injection H as <- _. exact (shiftStats_schedule _ _ Hshift).
  - injection H as <- _. reflexivity.
Qed.

(** X11. Counting and rendering do not interfere: [update] never changes
    a counter or [highest_], whether it renders or not, and neither
    [onKeyswitchEvent] nor [beforeEachCycle] ever changes the time of the
    next render, whether they halve the counters or not. *)
Theorem counting_and_rendering_independent cfg s :
  (forall millis_1 millis_2 s' leds,
     update cfg s millis_1 millis_2 = Some (s', leds) ->
     heatmap_ s' = heatmap_ s /\ highest_ s' = highest_ s) /\
  (forall k row col ks s' res,
     onKeyswitchEvent s k row col ks = Some (s', res) ->
     next_heatmap_comp_time_ s' = next_heatmap_comp_time_ s) /\
  (forall s' res,
     beforeEachCycle cfg s = Some (s', res) ->
     next_heatmap_comp_time_ s' = next_heatmap_comp_time_ s).
Proof.
  split; [|split].
  - intros millis_1 millis_2 s' leds. apply update_counters.
  - intros k row col ks s' res. apply onKeyswitchEvent_schedule.
  - intros s' res. apply beforeEachCycle_schedule.
Qed.

End Heatmap.

(** ** The theorems at work on the Model 01 *)



Lemma counters_never_exceed_INT16_MAX_witness :
  reachable Model01.ROWS Model01.COLS unit Model01.INJECTED Model01.keyToggledOn
    default_config (init_state Model01.ROWS Model01.COLS) /\
  highest_ (init_state Model01.ROWS Model01.COLS) <= INT16_MAX.
Proof.
  assert (Hreach : reachable Model01.ROWS Model01.COLS unit Model01.INJECTED
                     Model01.keyToggledOn default_config
                     (init_state Model01.ROWS Model01.COLS))
    by apply reach_init.
  split; [exact Hreach|].
  exact (proj1 (counters_never_exceed_INT16_MAX _ _ _ _ _ _ _ Hreach)).
Defined.

(** The default palette at -3, at 0 and at 7. *)
Lemma computeColor_clamp_witness :
  2 <= heat_colors_length default_config <= 255 /\
  cRGB.wf (heat_colors default_config 0%nat) /\
  cRGB.wf (heat_colors default_config 3%nat) /\
  computeColor default_config (F32.of_int (-3)) = cRGB.mk 0 0 0 /\
  computeColor default_config (F32.of_int 7) = cRGB.mk 25 25 255 /\
  computeColor default_config (F32.of_int (-3))
    = computeColor default_config (F32.of_int 0).
Proof.
  assert (Hlen : 2 <= heat_colors_length default_config <= 255) by (simpl; lia).
  assert (Hfirst : cRGB.wf (heat_colors default_config 0%nat))
    by (unfold cRGB.wf; simpl; lia).
  assert (Hlast : cRGB.wf (heat_colors default_config
                    (Z.to_nat (heat_colors_length default_config - 1))))
    by (unfold cRGB.wf; simpl; lia).
  split; [exact Hlen|]. split; [exact Hfirst|]. split; [exact Hlast|].
  split; [|split].
  - apply (proj1 (computeColor_clamp default_config (F32.of_int (-3))
                    Hlen Hfirst Hlast)). reflexivity.
  - apply (proj1 (proj2 (computeColor_clamp default_config (F32.of_int 7)
                           Hlen Hfirst Hlast))). reflexivity.
  - apply (proj2 (proj2 (computeColor_clamp default_config (F32.of_int (-3))
                           Hlen Hfirst Hlast))). reflexivity.
Defined.

(** C2 (counterexample). With the default palette the red channel of
    [computeColor(0.8)] is 255, not 117. *)
Lemma computeColor_0_8_default_red :
  cRGB.r (computeColor default_config F32.lit_0_8) = 255 /\
  cRGB.r (computeColor default_config F32.lit_0_8) <> 117.
Proof. split; [vm_compute; reflexivity|vm_compute; discriminate]. Qed.

(** The palette of the source comment: red components 0, 25, 25, 255. *)
Lemma computeColor_0_8_witness :
  let cfg := {| heat_colors :=
                  pointer_to [cRGB.mk 0 0 0; cRGB.mk 0 0 25;
                              cRGB.mk 0 0 25; cRGB.mk 0 0 255];
                heat_colors_length := 4;
                update_delay := 1000 |} in
  heat_colors_length cfg = 4 /\
  cRGB.r (heat_colors cfg 2%nat) = 25 /\
  cRGB.r (heat_colors cfg 3%nat) = 255 /\
  cRGB.r (computeColor cfg F32.lit_0_8) = 117.
Proof.
  intros cfg.
  split; [reflexivity|]. split; [reflexivity|]. split; [reflexivity|].
  apply (proj2 (proj2 computeColor_0_8) cfg); reflexivity.
Defined.

Lemma wf_grid_init : wf_grid 4 16 (heatmap_ (init_state 4 16)).
Proof. split; [reflexivity|]. simpl. repeat constructor. Qed.

Lemma shiftStats_halves_witness :
  wf_grid Model01.ROWS Model01.COLS (heatmap_ (init_state 4 16)) /\
  exists s',
    shiftStats Model01.ROWS Model01.COLS (init_state 4 16) = Some s' /\
    highest_ s' = 1 / 2.
Proof.
  split; [exact wf_grid_init|].
  destruct (shiftStats_halves Model01.ROWS Model01.COLS (init_state 4 16)
              wf_grid_init) as (s' & Hrun & _ & _ & Hh & _).
  exists s'. split; [exact Hrun|exact Hh].
Defined.

(** C9 (counterexample). After four presses of key (2, 3) the counter and
    [highest_] are 4; one call of [shiftStats] leaves 2, a second call
    leaves 1. *)
Lemma shiftStats_not_idempotent :
  exists s s1 s2,
    press_n Model01.ROWS Model01.COLS unit Model01.INJECTED Model01.keyToggledOn
      4 (init_state 4 16) tt 2 3 2 = Some s /\
    shiftStats Model01.ROWS Model01.COLS s = Some s1 /\
    shiftStats Model01.ROWS Model01.COLS s1 = Some s2 /\
    highest_ s = 4 /\ highest_ s1 = 2 /\ highest_ s2 = 1 /\
    cell (heatmap_ s1) 2 3 = Some 2 /\ cell (heatmap_ s2) 2 3 = Some 1 /\
    s2 <> s1.
Proof.
  do 3 eexists.
  split; [vm_compute; reflexivity|].
  split; [vm_compute; reflexivity|].
  split; [vm_compute; reflexivity|].
  repeat (split; [reflexivity|]). discriminate.
Qed.

Lemma shiftStats_twice_witness :
  wf_grid Model01.ROWS Model01.COLS (heatmap_ (init_state 4 16)) /\
  exists s1 s2,
    shiftStats Model01.ROWS Model01.COLS (init_state 4 16) = Some s1 /\
    shiftStats Model01.ROWS Model01.COLS s1 = Some s2 /\
    highest_ s2 = 1 / 4.
Proof.
  split; [exact wf_grid_init|].
  destruct (shiftStats_twice Model01.ROWS Model01.COLS (init_state 4 16)
              wf_grid_init) as (s1 & s2 & H1 & H2 & Hh & _).
  exists s1, s2. auto.
Defined.

(** Pressing key (2, 3) of a freshly started board 32766 times, then once
    more. *)
Lemma overflow_safety_witness :
  reachable Model01.ROWS Model01.COLS unit Model01.INJECTED Model01.keyToggledOn
    default_config (init_state Model01.ROWS Model01.COLS) /\
  Z.land 2 Model01.INJECTED = 0 /\
  Model01.keyToggledOn 2 = true /\
  cell (heatmap_ (init_state Model01.ROWS Model01.COLS)) 2 3 = Some 0 /\
  exists s1 sf,
    press_n Model01.ROWS Model01.COLS unit Model01.INJECTED Model01.keyToggledOn
      (Z.to_nat (INT16_MAX - 1 - 0)) (init_state Model01.ROWS Model01.COLS)
      tt 2 3 2 = Some s1 /\
    onKeyswitchEvent Model01.ROWS Model01.COLS unit Model01.INJECTED
      Model01.keyToggledOn s1 tt 2 3 2 = Some (sf, OK) /\
    highest_ sf = 16383.
Proof.
  assert (Hreach : reachable Model01.ROWS Model01.COLS unit Model01.INJECTED
                     Model01.keyToggledOn default_config
                     (init_state Model01.ROWS Model01.COLS))
    by apply reach_init.
  assert (Hinj : Z.land 2 Model01.INJECTED = 0) by reflexivity.
  assert (Hon : Model01.keyToggledOn 2 = true) by reflexivity.
  assert (Hx : cell (heatmap_ (init_state Model01.ROWS Model01.COLS)) 2 3 = Some 0)
    by reflexivity.
  split; [exact Hreach|]. split; [exact Hinj|]. split; [exact Hon|].
  split; [exact Hx|].
  destruct (overflow_safety _ _ _ _ _ default_config _ tt 2%nat 3%nat 2 0
              Hreach Hinj Hon Hx)
    as (_ & s1 & g' & sf & Hrun & _ & _ & _ & Hlast & Hh & _).
  exists s1, sf. auto.
Defined.

(** C6 (failing input). With a palette of 128 stops the 16-bit shift
    [128 << 9] is 0: the first cycle hook after start-up halves the
    counters although [highest_] is 1, far below 128 * 512, and leaves
    [highest_] at 0. *)
Theorem beforeEachCycle_palette_128 :
  let cfg := {| heat_colors := pointer_to (replicate 128 (cRGB.mk 25 255 25));
                heat_colors_length := 128;
                update_delay := 1000 |} in
  decay_threshold cfg = 0 /\
  ~ (highest_ (init_state Model01.ROWS Model01.COLS) > heat_colors_length cfg * 512) /\
  shiftStats Model01.ROWS Model01.COLS (init_state Model01.ROWS Model01.COLS)
    = Some {| heatmap_ := heatmap_ (init_state Model01.ROWS Model01.COLS);
              highest_ := 0;
              next_heatmap_comp_time_ := 0 |} /\
  beforeEachCycle Model01.ROWS Model01.COLS cfg (init_state Model01.ROWS Model01.COLS)
    = Some ({| heatmap_ := heatmap_ (init_state Model01.ROWS Model01.COLS);
               highest_ := 0;
               next_heatmap_comp_time_ := 0 |}, OK).
Proof.
  intros cfg. split; [reflexivity|].
  split; [simpl; lia|].
  split; vm_compute; reflexivity.
Qed.

(** An injected press and a release of key (2, 3). *)
Lemma onKeyswitchEvent_filter_witness :
  Z.land 130 Model01.INJECTED <> 0 /\
  Model01.keyToggledOn 1 = false /\
  onKeyswitchEvent Model01.ROWS Model01.COLS unit Model01.INJECTED
    Model01.keyToggledOn (init_state 4 16) tt 2 3 130
    = Some (init_state 4 16, OK) /\
  onKeyswitchEvent Model01.ROWS Model01.COLS unit Model01.INJECTED
    Model01.keyToggledOn (init_state 4 16) tt 2 3 1
    = Some (init_state 4 16, OK).
Proof.
  assert (Hinj : Z.land 130 Model01.INJECTED <> 0) by (vm_compute; discriminate).
  assert (Hoff : Model01.keyToggledOn 1 = false) by reflexivity.
  split; [exact Hinj|]. split; [exact Hoff|]. split.
  - exact (proj1 (onKeyswitchEvent_filter Model01.ROWS Model01.COLS unit
                    Model01.INJECTED Model01.keyToggledOn
                    (init_state 4 16) tt 2%nat 3%nat 130) Hinj).
  - exact (proj1 (proj2 (onKeyswitchEvent_filter Model01.ROWS Model01.COLS unit
                           Model01.INJECTED Model01.keyToggledOn
                           (init_state 4 16) tt 2%nat 3%nat 1)) Hoff).
Defined.

(** C8 (counterexample). A render pass at the last millisecond before the
    32-bit clock wraps stores 999, not the clock plus [update_delay]. *)
Lemma update_schedule_wraps :
  exists s' leds,
    update Model01.ROWS Model01.COLS default_config (init_state 4 16)
      4294967295 4294967295 = Some (s', leds) /\
    next_heatmap_comp_time_ s' = 999 /\
    next_heatmap_comp_time_ s' <> 4294967295 + update_delay default_config.
Proof.
  do 2 eexists. split; [vm_compute; reflexivity|].
  split; [reflexivity|]. simpl. lia.
Qed.

(** The first render pass of a freshly started board. *)
Lemma update_render_witness :
  wf_grid Model01.ROWS Model01.COLS (heatmap_ (init_state 4 16)) /\
  exists leds,
    update Model01.ROWS Model01.COLS default_config (init_state 4 16) 0 0
      = Some ({| heatmap_ := heatmap_ (init_state 4 16);
                 highest_ := 1;
                 next_heatmap_comp_time_ := to_uint32 (0 + 1000) |}, leds) /\
    length leds = (Model01.ROWS * Model01.COLS)%nat.
Proof.
  split; [exact wf_grid_init|].
  destruct (proj1 (proj2 (update_render Model01.ROWS Model01.COLS default_config
                            (init_state 4 16) 0 0 wf_grid_init)))
    as (leds & Hrun & Hlen & _); [left; reflexivity|].
  exists leds. split; [exact Hrun|exact Hlen].
Defined.

(** ** The further properties at work on the Model 01 *)

Lemma pressed_once_reachable :
  reachable Model01.ROWS Model01.COLS unit Model01.INJECTED Model01.keyToggledOn
    default_config
    {| heatmap_ := <[2%nat := <[3%nat := 1]> (replicate 16 0)]>
                     (replicate 4 (replicate 16 0));
       highest_ := 1;
       next_heatmap_comp_time_ := 0 |}.
Proof.
  apply (reach_key _ _ _ _ _ _ (init_state Model01.ROWS Model01.COLS)
           tt 2%nat 3%nat 2 _ OK); [apply reach_init|].
  vm_compute. reflexivity.
Qed.

Lemma default_palette_wf :
  cRGB.wf (heat_colors default_config 0%nat) /\
  cRGB.wf (heat_colors default_config
             (Z.to_nat (heat_colors_length default_config - 1))).
Proof. unfold cRGB.wf. simpl. lia. Qed.

(** A press, its release, an injected press of another key, a second
    press. *)
Lemma demo_events_on_matrix :
  on_matrix Model01.ROWS Model01.COLS unit
    [mkKeyEvent unit tt 2 3 2; mkKeyEvent unit tt 2 3 1;
     mkKeyEvent unit tt 1 1 130; mkKeyEvent unit tt 2 3 2].
Proof.
  unfold on_matrix, Model01.ROWS, Model01.COLS.
  repeat constructor; simpl; lia.
Qed.

(** The first render after one press of key (2, 3): red for that key,
    black for key (0, 0). *)
Lemma render_extremes_witness :
  let pressed :=
    {| heatmap_ := <[2%nat := <[3%nat := 1]> (replicate 16 0)]>
                     (replicate 4 (replicate 16 0));
       highest_ := 1;
       next_heatmap_comp_time_ := 0 |} in
  1 <= heat_colors_length default_config <= 127 /\
  exists s' leds,
    update Model01.ROWS Model01.COLS default_config pressed 0 0 = Some (s', leds) /\
    leds !! 35%nat = Some (2%nat, 3%nat, cRGB.mk 25 25 255) /\
    leds !! 0%nat = Some (0%nat, 0%nat, cRGB.mk 0 0 0).
Proof.
  intros pressed.
  assert (Hlen : 1 <= heat_colors_length default_config <= 127) by (simpl; lia).
  split; [exact Hlen|].
  destruct (render_extremes _ _ _ _ _ default_config pressed 0 0 Hlen
              (proj1 default_palette_wf) (proj2 default_palette_wf)
              pressed_once_reachable (or_introl eq_refl))
    as (s' & leds & Hrun & Hleds).
  exists s', leds. split; [exact Hrun|]. split.
  - exact (proj1 (Hleds 2%nat 3%nat) eq_refl).
  - exact (proj2 (Hleds 0%nat 0%nat) eq_refl).
Defined.

Lemma highest_is_running_maximum_witness :
  let pressed :=
    {| heatmap_ := <[2%nat := <[3%nat := 1]> (replicate 16 0)]>
                     (replicate 4 (replicate 16 0));
       highest_ := 1;
       next_heatmap_comp_time_ := 0 |} in
  1 <= heat_colors_length default_config <= 127 /\
  (highest_ pressed = 1 \/
   exists r c, (r < Model01.ROWS)%nat /\ (c < Model01.COLS)%nat /\
               cell (heatmap_ pressed) r c = Some (highest_ pressed)).
Proof.
  intros pressed.
  assert (Hlen : 1 <= heat_colors_length default_config <= 127) by (simpl; lia).
  split; [exact Hlen|].
  exact (highest_is_running_maximum _ _ _ _ _ default_config pressed Hlen
           pressed_once_reachable).
Defined.

Lemma presses_are_counted_witness :
  let evs := [mkKeyEvent unit tt 2 3 2; mkKeyEvent unit tt 2 3 1;
              mkKeyEvent unit tt 1 1 130; mkKeyEvent unit tt 2 3 2] in
  highest_ (init_state Model01.ROWS Model01.COLS) + Z.of_nat (length evs)
    < INT16_MAX /\
  exists s',
    run_events Model01.ROWS Model01.COLS unit Model01.INJECTED
      Model01.keyToggledOn evs (init_state Model01.ROWS Model01.COLS) = Some s' /\
    cell (heatmap_ s') 2 3 = Some 2 /\
    cell (heatmap_ s') 1 1 = Some 0.
Proof.
  intros evs.
  assert (Hroom : highest_ (init_state Model01.ROWS Model01.COLS)
                  + Z.of_nat (length evs) < INT16_MAX) by (vm_compute; reflexivity).
  split; [exact Hroom|].
  destruct (presses_are_counted Model01.ROWS Model01.COLS unit Model01.INJECTED
              Model01.keyToggledOn default_config evs _
              (reach_init _ _ _ _ _ _) demo_events_on_matrix Hroom)
    as (s' & Hrun & Hcells & _).
  exists s'. split; [exact Hrun|]. split.
  - exact (Hcells 2%nat 3%nat 0 eq_refl).
  - exact (Hcells 1%nat 1%nat 0 eq_refl).
Defined.

Lemma single_key_heat_witness :
  let evs := [mkKeyEvent unit tt 2 3 2; mkKeyEvent unit tt 2 3 1;
              mkKeyEvent unit tt 1 1 130; mkKeyEvent unit tt 2 3 2] in
  1 <= presses_at unit Model01.INJECTED Model01.keyToggledOn 2 3 evs /\
  exists s s' leds,
    run_events Model01.ROWS Model01.COLS unit Model01.INJECTED
      Model01.keyToggledOn evs (init_state Model01.ROWS Model01.COLS) = Some s /\
    highest_ s = 2 /\
    update Model01.ROWS Model01.COLS default_config s 5000 5000 = Some (s', leds) /\
    leds !! 35%nat = Some (2%nat, 3%nat, cRGB.mk 25 25 255) /\
    leds !! 17%nat = Some (1%nat, 1%nat, cRGB.mk 0 0 0).
Proof.
  intros evs.
  assert (Hone : 1 <= presses_at unit Model01.INJECTED Model01.keyToggledOn 2 3 evs)
    by (vm_compute; discriminate).
  split; [exact Hone|].
  assert (Honly : Forall (fun e => is_fresh Model01.INJECTED Model01.keyToggledOn
                                     (ev_state unit e) = true ->
                                   ev_row unit e = 2%nat /\ ev_col unit e = 3%nat) evs).
  { constructor; [intros _; split; reflexivity|].
    constructor; [intros H; vm_compute in H; discriminate|].
    constructor; [intros H; vm_compute in H; discriminate|].
    constructor; [intros _; split; reflexivity|].
    constructor. }
  assert (Hlen : 1 <= heat_colors_length default_config <= 255) by (simpl; lia).
  assert (Hr0 : (2 < Model01.ROWS)%nat) by (unfold Model01.ROWS; lia).
  assert (Hc0 : (3 < Model01.COLS)%nat) by (unfold Model01.COLS; lia).
  assert (Hshort : Z.of_nat (length evs) < INT16_MAX - 1)
    by (vm_compute; reflexivity).
  destruct (single_key_heat Model01.ROWS Model01.COLS unit Model01.INJECTED
              Model01.keyToggledOn default_config evs 2%nat 3%nat 5000 5000
              Hlen (proj1 default_palette_wf) (proj2 default_palette_wf)
              demo_events_on_matrix Hr0 Hc0 Honly Hone Hshort)
    as (s & s' & leds & Hrun & Hh & Hup & Hhot & Hcold).
  exists s, s', leds. split; [exact Hrun|]. split; [exact Hh|].
  split; [exact Hup|]. split; [exact Hhot|].
  apply (Hcold 1%nat 1%nat); [unfold Model01.ROWS; lia|unfold Model01.COLS; lia|].
  discriminate.
Defined.

Lemma cycle_hook_idle_for_long_palettes_witness :
  let cfg := {| heat_colors := pointer_to (replicate 64 (cRGB.mk 25 255 25));
                heat_colors_length := 64;
                update_delay := 1000 |} in
  64 <= heat_colors_length cfg <= 127 /\
  beforeEachCycle Model01.ROWS Model01.COLS cfg (init_state Model01.ROWS Model01.COLS)
    = Some (init_state Model01.ROWS Model01.COLS, OK).
Proof.
  intros cfg.
  assert (Hlen : 64 <= heat_colors_length cfg <= 127) by (simpl; lia).
  split; [exact Hlen|].
  exact (cycle_hook_idle_for_long_palettes Model01.ROWS Model01.COLS unit
           Model01.INJECTED Model01.keyToggledOn cfg _ Hlen
           (reach_init _ _ _ _ _ _)).
Defined.

Lemma hook_after_each_event_witness :
  1 <= heat_colors_length default_config <= 63 /\
  highest_ (init_state Model01.ROWS Model01.COLS)
    <= heat_colors_length default_config * 512 /\
  exists s1 s2,
    onKeyswitchEvent Model01.ROWS Model01.COLS unit Model01.INJECTED
      Model01.keyToggledOn (init_state Model01.ROWS Model01.COLS) tt 2 3 2
      = Some (s1, OK) /\
    beforeEachCycle Model01.ROWS Model01.COLS default_config s1 = Some (s2, OK) /\
    highest_ s2 <= heat_colors_length default_config * 512.
Proof.
  assert (Hlen : 1 <= heat_colors_length default_config <= 63) by (simpl; lia).
  assert (Hlow : highest_ (init_state Model01.ROWS Model01.COLS)
                 <= heat_colors_length default_config * 512) by (simpl; lia).
  split; [exact Hlen|]. split; [exact Hlow|].
  destruct (hook_after_each_event Model01.ROWS Model01.COLS unit Model01.INJECTED
              Model01.keyToggledOn default_config _ tt 2%nat 3%nat 2 0 Hlen
              (counters_bounded_init Model01.ROWS Model01.COLS) Hlow eq_refl)
    as (s1 & s2 & Hkey & _ & _ & Hhook & _ & Hh).
  exists s1, s2. auto.
Defined.

Lemma shiftStats_iterated_witness :
  wf_grid Model01.ROWS Model01.COLS (heatmap_ (init_state 4 16)) /\
  exists s',
    iter_shiftStats Model01.ROWS Model01.COLS 16 (init_state 4 16) = Some s' /\
    highest_ s' = 0.
Proof.
  split; [exact wf_grid_init|].
  destruct (shiftStats_iterated Model01.ROWS Model01.COLS 16 (init_state 4 16)
              wf_grid_init) as (s' & Hrun & _ & _ & Hzero).
  exists s'. split; [exact Hrun|]. apply (proj1 (Hzero ltac:(lia))). simpl. lia.
Defined.

Lemma shiftStats_keeps_order_witness :
  wf_grid Model01.ROWS Model01.COLS (heatmap_ (init_state 4 16)) /\
  exists s' x',
    shiftStats Model01.ROWS Model01.COLS (init_state 4 16) = Some s' /\
    cell (heatmap_ s') 2 3 = Some x' /\ x' <= highest_ s'.
Proof.
  split; [exact wf_grid_init|].
  destruct (shiftStats_keeps_order Model01.ROWS Model01.COLS (init_state 4 16)
              wf_grid_init) as (s' & Hrun & _ & Hbound).
  destruct (Hbound 2%nat 3%nat 0 eq_refl) as (x' & Hx' & Hle); [simpl; lia|].
  exists s', x'. auto.
Defined.

Lemma update_rate_limit_witness :
  0 < 0 + update_delay default_config < 4294967296 /\
  exists s' leds,
    update Model01.ROWS Model01.COLS default_config (init_state 4 16) 0 0
      = Some (s', leds) /\
    update Model01.ROWS Model01.COLS default_config s' 999 999 = Some (s', []).
Proof.
  assert (Hfit : 0 < 0 + update_delay default_config < 4294967296) by (simpl; lia).
  split; [exact Hfit|].
  destruct (update_rate_limit Model01.ROWS Model01.COLS default_config
              (init_state 4 16) 0 0 wf_grid_init (or_introl eq_refl) Hfit)
    as (s' & leds & Hrun & _ & Hidle).
  exists s', leds. split; [exact Hrun|]. apply Hidle. simpl. lia.
Defined.

Lemma update_after_clock_wrap_witness :
  4294967296 <= 4294967295 + update_delay default_config /\
  exists s' leds s'' leds',
    update Model01.ROWS Model01.COLS default_config (init_state 4 16)
      4294967295 4294967295 = Some (s', leds) /\
    next_heatmap_comp_time_ s' = 999 /\
    update Model01.ROWS Model01.COLS default_config s' 4294967295 4294967295
      = Some (s'', leds') /\
    length leds' = (Model01.ROWS * Model01.COLS)%nat.
Proof.
  assert (Hwrap : 4294967296 <= 4294967295 + update_delay default_config)
    by (simpl; lia).
  split; [exact Hwrap|].
  destruct (update_after_clock_wrap Model01.ROWS Model01.COLS default_config
              (init_state 4 16) 4294967295 4294967295 wf_grid_init
              (or_introl eq_refl) ltac:(lia) ltac:(simpl; lia) Hwrap)
    as (s' & leds & Hrun & Hnext & Hagain).
  destruct (Hagain 4294967295 4294967295 ltac:(lia)) as (s'' & leds' & Hrun' & Hlen').
  exists s', leds, s'', leds'. auto.
Defined.

(** A fresh press after the first render leaves the schedule at 1000. *)
Lemma counting_and_rendering_independent_witness :
  let rendered := {| heatmap_ := heatmap_ (init_state 4 16);
                     highest_ := 1;
                     next_heatmap_comp_time_ := 1000 |} in
  exists s',
    onKeyswitchEvent Model01.ROWS Model01.COLS unit Model01.INJECTED
      Model01.keyToggledOn rendered tt 2 3 2 = Some (s', OK) /\
    next_heatmap_comp_time_ s' = 1000.
Proof.
  intros rendered.
  assert (Hev : onKeyswitchEvent Model01.ROWS Model01.COLS unit Model01.INJECTED
                  Model01.keyToggledOn rendered tt 2 3 2
                = Some ({| heatmap_ := <[2%nat := <[3%nat := 1]> (replicate 16 0)]>
                                         (replicate 4 (replicate 16 0));
                           highest_ := 1;
                           next_heatmap_comp_time_ := 1000 |}, OK))
    by (vm_compute; reflexivity).
  eexists. split; [exact Hev|].
  exact (proj1 (proj2 (counting_and_rendering_independent Model01.ROWS
                         Model01.COLS unit Model01.INJECTED Model01.keyToggledOn
                         default_config rendered))
           tt 2%nat 3%nat 2 _ OK Hev).
Defined.
